(** * 5chUtils: the dat / HTML conversion core of [page.tsx]

    A shallow embedding of the pure functions of the page component
    ([convertToDatUrl], [parseDatFile], [stripTagsKeepBrA],
    [extractNameAndMail], [parseHtmlPosts], [extractThreadKey], the
    serializer inside [convertHtmlToDat], the handler [handleConvert]
    and the file names of the two downloads), of [convertToDatUrl] and
    [parseDatFile] of the earlier page, together with the fragment of
    the JavaScript string and regular-expression semantics they rely on. *)

From Stdlib Require Import Ascii String.
From Stdlib Require Import List NArith Bool Arith Lia.
From Stdlib Require Import DecimalString.
Import ListNotations.

(** ** JavaScript strings

    A JavaScript string is a sequence of UTF-16 code units.  None of the
    regular expressions of the program carries the [u] flag, so every
    operation below works on single code units. *)

Abbreviation char := N (only parsing).
Abbreviation jsstring := (list N) (only parsing).

Definition js (s : string) : jsstring :=
  map N_of_ascii (list_ascii_of_string s).
Arguments js s%_string.

(** The double quote, written by its code. *)
Definition dq : char := 34%N.

Definition str_eqb (a b : jsstring) : bool :=
  if list_eq_dec N.eq_dec a b then true else false.

Definition isEmpty (s : jsstring) : bool :=
  match s with [] => true | _ => false end.

(** [a || b] on strings: the empty string is the only falsy one. *)
Definition orElse (a b : jsstring) : jsstring :=
  if isEmpty a then b else a.

Definition inRange (lo hi c : N) : bool := (N.leb lo c && N.leb c hi)%bool.

(** WhiteSpace and LineTerminator of ECMAScript: the set stripped by
    [trim] and matched by [\s]. *)
Definition isSpace (c : char) : bool :=
  (inRange 9 13 c || N.eqb c 32 || N.eqb c 160 || N.eqb c 5760
   || inRange 8192 8202 c || N.eqb c 8232 || N.eqb c 8233
   || N.eqb c 8239 || N.eqb c 8287 || N.eqb c 12288 || N.eqb c 65279)%bool%N.

Definition isDigit (c : char) : bool := inRange 48 57 c.

(** [\w] without the [u] flag. *)
Definition isWord (c : char) : bool :=
  (inRange 97 122 c || inRange 65 90 c || isDigit c || N.eqb c 95)%bool%N.

Definition oneOf (a : string) (c : char) : bool :=
  existsb (N.eqb c) (js a).
Arguments oneOf a%_string c.

Definition noneOf (a : string) (c : char) : bool := negb (oneOf a c).
Arguments noneOf a%_string c.

(** Canonicalize of the [i] flag (without [u]) on the ASCII range: a
    code unit above it never canonicalizes into it. *)
Definition toUpper (c : N) : N :=
  if inRange 97 122 c then (c - 32)%N else c.

(** A code unit of the pattern under the [i] flag. *)
Definition isCI (a : N) (c : char) : bool :=
  N.eqb (toUpper a) (toUpper c).

Definition anyChar (c : char) : bool := true.

Fixpoint dropWhile (p : char -> bool) (s : jsstring) : jsstring :=
  match s with
  | [] => []
  | c :: s' => if p c then dropWhile p s' else s
  end.

Definition trimStart (s : jsstring) : jsstring := dropWhile isSpace s.
Definition trimEnd (s : jsstring) : jsstring := rev (dropWhile isSpace (rev s)).
Definition trim (s : jsstring) : jsstring := trimEnd (trimStart s).

Fixpoint startsWith (p s : jsstring) : bool :=
  match p, s with
  | [], _ => true
  | a :: p', b :: s' => (N.eqb a b && startsWith p' s')%bool
  | _ :: _, [] => false
  end.

(** [s.split(sep)] for a non-empty separator: the occurrences of [sep]
    are found left to right without overlap; [skip] counts the code
    units of the separator still to be passed over. *)
Fixpoint split_go (sep : jsstring) (skip : nat) (s : jsstring)
  : list jsstring :=
  match s with
  | [] => [[]]
  | c :: s' =>
      match skip with
      | S k => split_go sep k s'
      | O =>
          if startsWith sep s
          then [] :: split_go sep (length sep - 1) s'
          else match split_go sep 0 s' with
               | f :: fs => (c :: f) :: fs
               | [] => [[c]]
               end
      end
  end.

Definition split (sep s : jsstring) : list jsstring := split_go sep 0 s.

(** [parts.join(sep)] *)
Fixpoint join (sep : jsstring) (parts : list jsstring) : jsstring :=
  match parts with
  | [] => []
  | [p] => p
  | p :: ps => p ++ sep ++ join sep ps
  end.

(** Decimal rendering of an array index inside a template literal. *)
Definition showNat (n : nat) : jsstring :=
  js (NilZero.string_of_uint (Nat.to_uint n)).

(** [parseInt] on a run of decimal digits. *)
Definition parseInt (s : jsstring) : N :=
  fold_left (fun acc c => (10 * acc + (c - 48))%N) s 0%N.

(** ** Regular expressions

    In the patterns quoted below the double quote is written [\x22].

    Every pattern of the program is a plain sequence of single-character
    atoms, each under one quantifier, of [\b] assertions, and of capture
    groups that enclose exactly one quantified atom.  [Atom p q cap] is
    the class [p] under quantifier [q], captured when [cap] is set. *)

Inductive quant := One | Opt | Star | Plus | LazyStar | LazyPlus.

Inductive item :=
| Atom (p : char -> bool) (q : quant) (cap : bool)
| WordB.

Definition regex := list item.

(** What a successful match hands back: the captures in group order and
    the unread input. *)
Record result := Res {
  caps : list jsstring;
  rest : jsstring
}.

Definition cont := option char -> jsstring -> option result.

Definition isWordAt (c : option char) : bool :=
  match c with Some x => isWord x | None => false end.

Definition consumed (c : char) (r : option (jsstring * result))
  : option (jsstring * result) :=
  match r with
  | Some (w, x) => Some (c :: w, x)
  | None => None
  end.

Definition nothing (r : option result) : option (jsstring * result) :=
  match r with
  | Some x => Some ([], x)
  | None => None
  end.

(** Greedy repetition: take one more code unit first, give it back
    when the rest of the pattern fails. *)
Fixpoint greedy (p : char -> bool) (k : cont) (prev : option char)
  (s : jsstring) : option (jsstring * result) :=
  match s with
  | c :: s' =>
      if p c
      then match greedy p k (Some c) s' with
           | Some (w, x) => Some (c :: w, x)
           | None => nothing (k prev s)
           end
      else nothing (k prev s)
  | [] => nothing (k prev [])
  end.

(** Lazy repetition: try the rest of the pattern first. *)
Fixpoint lazy (p : char -> bool) (k : cont) (prev : option char)
  (s : jsstring) : option (jsstring * result) :=
  match k prev s with
  | Some x => Some ([], x)
  | None =>
      match s with
      | c :: s' => if p c then consumed c (lazy p k (Some c) s') else None
      | [] => None
      end
  end.

Definition once (p : char -> bool)
  (f : option char -> jsstring -> option (jsstring * result))
  (s : jsstring) : option (jsstring * result) :=
  match s with
  | c :: s' => if p c then consumed c (f (Some c) s') else None
  | [] => None
  end.

Definition atom (p : char -> bool) (q : quant) (k : cont)
  (prev : option char) (s : jsstring) : option (jsstring * result) :=
  match q with
  | One => once p (fun pr t => nothing (k pr t)) s
  | Opt =>
      match once p (fun pr t => nothing (k pr t)) s with
      | Some x => Some x
      | None => nothing (k prev s)
      end
  | Star => greedy p k prev s
  | Plus => once p (greedy p k) s
  | LazyStar => lazy p k prev s
  | LazyPlus => once p (lazy p k) s
  end.

Definition record (cap : bool) (r : option (jsstring * result))
  : option result :=
  match r with
  | Some (w, x) =>
      Some (if cap then Res (w :: caps x) (rest x) else x)
  | None => None
  end.

(** The backtracking matcher, anchored at the current position. *)
Fixpoint run (r : regex) : cont :=
  match r with
  | [] => fun prev s => Some (Res [] s)
  | Atom p q cap :: r' => fun prev s => record cap (atom p q (run r') prev s)
  | WordB :: r' =>
      fun prev s =>
        if xorb (isWordAt prev) (isWordAt (hd_error s))
        then run r' prev s
        else None
  end.

(** [s.match(re)] for a pattern without the [g] flag: the leftmost
    position at which [run] succeeds.  The first component is the text
    before the match ([match.index] is its length). *)
Fixpoint search (r : regex) (prev : option char) (s : jsstring)
  : option (jsstring * result) :=
  match run r prev s with
  | Some x => Some ([], x)
  | None =>
      match s with
      | c :: s' => consumed c (search r (Some c) s')
      | [] => None
      end
  end.

Definition matchRe (r : regex) (s : jsstring) : option (jsstring * result) :=
  search r None s.

(** [s.replace(re, f)] without the [g] flag. *)
Definition replaceFirst (r : regex) (f : list jsstring -> jsstring)
  (s : jsstring) : jsstring :=
  match matchRe r s with
  | Some (before, x) => before ++ f (caps x) ++ rest x
  | None => s
  end.

(** [s.replace(re, f)] with the [g] flag, the callback threading a
    state of type [St] (the [anchors] array of [stripTagsKeepBrA]).
    The scan walks the input once; after a match of [n] code units the
    next [n - 1] are passed over, an empty match copies one code unit. *)
Section ReplaceAll.
Variable St : Type.
Variable r : regex.
Variable f : St -> list jsstring -> St * jsstring.

Fixpoint replaceAll_go (skip : nat) (st : St) (prev : option char)
  (s : jsstring) : St * jsstring :=
  match s with
  | [] =>
      match skip, run r prev [] with
      | O, Some x => f st (caps x)
      | _, _ => (st, [])
      end
  | c :: s' =>
      match skip with
      | S k => replaceAll_go k st (Some c) s'
      | O =>
          match run r prev s with
          | Some x =>
              let (st1, out) := f st (caps x) in
              match length s - length (rest x) with
              | O =>
                  let (st2, tl) := replaceAll_go 0 st1 (Some c) s' in
                  (st2, out ++ c :: tl)
              | S k =>
                  let (st2, tl) := replaceAll_go k st1 (Some c) s' in
                  (st2, out ++ tl)
              end
          | None =>
              let (st2, tl) := replaceAll_go 0 st (Some c) s' in
              (st2, c :: tl)
          end
      end
  end.

Definition replaceAllSt (st : St) (s : jsstring) : St * jsstring :=
  replaceAll_go 0 st None s.
End ReplaceAll.
Arguments replaceAll_go {St} r f skip st prev s.
Arguments replaceAllSt {St} r f st s.

Definition replaceAll (r : regex) (f : list jsstring -> jsstring)
  (s : jsstring) : jsstring :=
  snd (replaceAllSt r (fun (_ : unit) c => (tt, f c)) tt s).

(** Start indices of [s.matchAll(re)]; no pattern used with it can
    match the empty string. *)
Fixpoint matchAll_go (r : regex) (skip : nat) (pos : nat)
  (prev : option char) (s : jsstring) : list nat :=
  match s with
  | [] => []
  | c :: s' =>
      match skip with
      | S k => matchAll_go r k (S pos) (Some c) s'
      | O =>
          match run r prev s with
          | Some x =>
              pos :: matchAll_go r (length s - length (rest x) - 1) (S pos)
                       (Some c) s'
          | None => matchAll_go r 0 (S pos) (Some c) s'
          end
      end
  end.

Definition matchAllIdx (r : regex) (s : jsstring) : list nat :=
  matchAll_go r 0 0 None s.

Definition substring (a b : nat) (s : jsstring) : jsstring :=
  firstn (b - a) (skipn a s).

(** Pattern building blocks. *)
Definition chr (c : N) : regex := [Atom (N.eqb c) One false].
Definition litS (w : jsstring) : regex :=
  map (fun c => Atom (N.eqb c) One false) w.
Definition lit (s : string) : regex := litS (js s).
Arguments lit s%_string.
Definition litCI (s : string) : regex :=
  map (fun c => Atom (isCI c) One false) (js s).
Arguments litCI s%_string.
Definition cls (p : char -> bool) (q : quant) : regex := [Atom p q false].
Definition grp (p : char -> bool) (q : quant) : regex := [Atom p q true].

Definition group (n : nat) (x : result) : jsstring :=
  nth (n - 1) (caps x) [].

Definition notSpace (c : char) : bool := negb (isSpace c).
Definition notDq (c : char) : bool := negb (N.eqb c dq).

Definition lf : jsstring := [10%N].

(** ** The data model *)

Record Post := mkPost {
  name : jsstring;
  mail : jsstring;
  date : jsstring;
  id : jsstring;
  message : jsstring
}.

(** The placeholder name of the dat parser, U+540D U+7121 U+3057 U+3055
    U+3093. *)
Definition nanashi : jsstring := [21517; 28961; 12375; 12373; 12435]%N.

(** ** [convertToDatUrl] *)

(** [/https?:\/\/([^\/]+)\.([^\/]+)\/test\/read\.cgi\/([^\/]+)\/(\d+)/] *)
Definition urlTail : regex :=
  lit "/test/read.cgi/" ++ grp (noneOf "/") Plus ++ lit "/" ++ grp isDigit Plus.

Definition urlAfterServer : regex :=
  lit "." ++ grp (noneOf "/") Plus ++ urlTail.

Definition urlRe : regex :=
  lit "http" ++ cls (oneOf "s") Opt ++ lit "://"
  ++ grp (noneOf "/") Plus ++ urlAfterServer.

Definition convertToDatUrl (url : jsstring) (isDatOchi : bool)
  : option jsstring :=
  match matchRe urlRe url with
  | Some (_, m) =>
      let server := group 1 m in
      let domain := group 2 m in
      let board := group 3 m in
      let threadId := group 4 m in
      if length threadId <? 5 then None
      else if isDatOchi then
        if (str_eqb domain (js "5ch.net") || str_eqb domain (js "bbspink.com"))%bool
        then
          let first4 := substring 0 4 threadId in
          Some (js "https://" ++ server ++ js "." ++ domain ++ js "/" ++ board
                ++ js "/oyster/" ++ first4 ++ js "/" ++ threadId ++ js ".dat")
        else
          let first4 := substring 0 4 threadId in
          let first5 := substring 0 5 threadId in
          Some (js "https://" ++ server ++ js "." ++ domain ++ js "/" ++ board
                ++ js "/kako/" ++ first4 ++ js "/" ++ first5 ++ js "/"
                ++ threadId ++ js ".dat")
      else
        Some (js "https://" ++ server ++ js "." ++ domain ++ js "/" ++ board
              ++ js "/dat/" ++ threadId ++ js ".dat")
  | None => None
  end.

(** ** [parseDatFile] *)

(** [/ID:([^\s]+)/] *)
Definition idRe : regex := lit "ID:" ++ grp notSpace Plus.

(** [/ID:[^\s]+/] *)
Definition idStripRe : regex := lit "ID:" ++ cls notSpace Plus.

Definition sep : jsstring := js "<>".

Definition idOf (dateAndId : jsstring) : jsstring :=
  match matchRe idRe dateAndId with
  | Some (_, idMatch) => group 1 idMatch
  | None => []
  end.

Definition dateOf (dateAndId : jsstring) : jsstring :=
  trim (replaceFirst idStripRe (fun _ => []) dateAndId).

Definition postOfParts (parts : list jsstring) : Post :=
  let name := nth 0 parts [] in
  let mail := nth 1 parts [] in
  let dateAndId := nth 2 parts [] in
  let message := nth 3 parts [] in
  mkPost (orElse name nanashi) mail (dateOf dateAndId) (idOf dateAndId) message.

(** The body of the [forEach] callback: [parsedPosts.push] when the
    line has at least four fields. *)
Definition pushLine (parsedPosts : list Post) (line : jsstring) : list Post :=
  let parts := split sep line in
  if 4 <=? length parts
  then parsedPosts ++ [postOfParts parts]
  else parsedPosts.

Definition nonBlank (line : jsstring) : bool := negb (isEmpty (trim line)).

Definition parseDatFile (content : jsstring) : list Post :=
  let lines := filter nonBlank (split lf content) in
  fold_left pushLine lines [].

(** ** [stripTagsKeepBrA] *)

(** [/<\/?wbr\s*\/?>/gi] *)
Definition wbrRe : regex :=
  lit "<" ++ cls (oneOf "/") Opt ++ litCI "wbr" ++ cls isSpace Star
  ++ cls (oneOf "/") Opt ++ lit ">".

(** [/<br\s*\/?>/gi] *)
Definition brAnyRe : regex :=
  lit "<" ++ litCI "br" ++ cls isSpace Star ++ cls (oneOf "/") Opt ++ lit ">".

(** [/<a\b([^>]*?)>([\s\S]*?)<\/a>/gi] *)
Definition anchorRe : regex :=
  lit "<" ++ litCI "a" ++ [WordB] ++ grp (noneOf ">") LazyStar ++ lit ">"
  ++ grp anyChar LazyStar ++ lit "</" ++ litCI "a" ++ lit ">".

(** [/\bhref=\x22([^\x22]+)\x22/i] *)
Definition hrefRe : regex :=
  [WordB] ++ litCI "href=" ++ chr dq ++ grp notDq Plus ++ chr dq.

(** [/<br>/g] *)
Definition brRe : regex := lit "<br>".

(** [/<[^>]+>/g] *)
Definition tagRe : regex := lit "<" ++ cls (noneOf ">") Plus ++ lit ">".

(** [/\r/g] *)
Definition crRe : regex := chr 13.

Definition brMark : jsstring := [0%N] ++ js "BR" ++ [0%N].

(** [/\x00BR\x00/g] *)
Definition brMarkRe : regex := chr 0 ++ lit "BR" ++ chr 0.

(** [/\x00A(\d+)\x00/g] *)
Definition anchorMarkRe : regex := chr 0 ++ lit "A" ++ grp isDigit Plus ++ chr 0.

(** [/[ \t\f\v]+/g] *)
Definition blanksRe : regex :=
  cls (fun c => (N.eqb c 32 || N.eqb c 9 || N.eqb c 12 || N.eqb c 11)%bool) Plus.

(** [/ ?<br> ?/g] *)
Definition brSpacedRe : regex :=
  cls (oneOf " ") Opt ++ lit "<br>" ++ cls (oneOf " ") Opt.

(** The callback of the anchor replacement: rebuilds the anchor around
    its [href], pushes it on [anchors] and leaves a numbered mark. *)
Definition stashAnchor (anchors : list jsstring) (groups : list jsstring)
  : list jsstring * jsstring :=
  let attrs := nth 0 groups [] in
  let inner := nth 1 groups [] in
  let href :=
    match matchRe hrefRe attrs with
    | Some (_, hrefMatch) => group 1 hrefMatch
    | None => []
    end in
  let tag :=
    if isEmpty href then inner
    else js "<a href=" ++ [dq] ++ href ++ [dq] ++ js ">" ++ inner ++ js "</a>" in
  let anchors' := anchors ++ [tag] in
  (anchors', [0%N] ++ js "A" ++ showNat (length anchors' - 1) ++ [0%N]).

(** [anchors[parseInt(index)]]; an index past the end reads [undefined],
    which [replace] renders as the text undefined. *)
Definition restoreAnchor (anchors : list jsstring) (groups : list jsstring)
  : jsstring :=
  nth (N.to_nat (parseInt (nth 0 groups []))) anchors (js "undefined").

Definition stripTagsKeepBrA (bodyHtml : jsstring) : jsstring :=
  let bodyHtml := replaceAll wbrRe (fun _ => []) bodyHtml in
  let bodyHtml := replaceAll brAnyRe (fun _ => js "<br>") bodyHtml in
  let (anchors, bodyHtml) := replaceAllSt anchorRe stashAnchor [] bodyHtml in
  let bodyHtml := replaceAll brRe (fun _ => brMark) bodyHtml in
  let bodyHtml := replaceAll tagRe (fun _ => []) bodyHtml in
  let bodyHtml := replaceAll crRe (fun _ => []) bodyHtml in
  let bodyHtml := replaceAll brMarkRe (fun _ => js "<br>") bodyHtml in
  let bodyHtml := replaceAll anchorMarkRe (restoreAnchor anchors) bodyHtml in
  let bodyHtml := replaceAll blanksRe (fun _ => js " ") bodyHtml in
  let bodyHtml := replaceAll brSpacedRe (fun _ => js "<br>") bodyHtml in
  trim bodyHtml.

(** ** The HTML parser

    [unescapeHtml] hands its argument to the host DOM (the [innerHTML]
    and [value] of a fresh [textarea]); the decoding of character
    references done there is a parameter of this section. *)

(** [/href=\x22mailto:(G)\x22/i], the group [G] being [[^\x22]*] *)
Definition mailRe : regex :=
  litCI "href=" ++ chr dq ++ litCI "mailto:" ++ grp notDq Star ++ chr dq.

(** [/<span\s+class=\x22X\x22>/i] *)
Definition spanOpen (class : string) : regex :=
  lit "<" ++ litCI "span" ++ cls isSpace Plus ++ litCI "class=" ++ chr dq
  ++ litCI class ++ chr dq ++ lit ">".
Arguments spanOpen class%_string.

Definition spanClose : regex := lit "</" ++ litCI "span" ++ lit ">".

(** [/<span\s+class=\x22postusername\x22>([\s\S]*?)<\/span>/i] *)
Definition usernameRe : regex :=
  spanOpen "postusername" ++ grp anyChar LazyStar ++ spanClose.

(** [/>([^<]+)<\/a>/i] *)
Definition nameAnchorRe : regex :=
  lit ">" ++ grp (noneOf "<") Plus ++ lit "</" ++ litCI "a" ++ lit ">".

(** [/<div\s+id=\x22(\d+)\x22[^>]*\bclass=\x22[^\x22]*\bpost\b[^\x22]*\x22[^>]*>/gi] *)
Definition divPostRegex : regex :=
  lit "<" ++ litCI "div" ++ cls isSpace Plus ++ litCI "id=" ++ chr dq
  ++ grp isDigit Plus ++ chr dq ++ cls (noneOf ">") Star ++ [WordB]
  ++ litCI "class=" ++ chr dq ++ cls notDq Star ++ [WordB] ++ litCI "post"
  ++ [WordB] ++ cls notDq Star ++ chr dq ++ cls (noneOf ">") Star ++ lit ">".

(** [/<span\s+class=\x22date\x22>\s*([^<]+?)\s*<\/span>/i] *)
Definition dateRe : regex :=
  spanOpen "date" ++ cls isSpace Star ++ grp (noneOf "<") LazyPlus
  ++ cls isSpace Star ++ spanClose.

(** [/<span\s+class=\x22uid\x22>\s*ID:([^<]+?)\s*<\/span>/i] *)
Definition uidRe : regex :=
  spanOpen "uid" ++ cls isSpace Star ++ litCI "ID:" ++ grp (noneOf "<") LazyPlus
  ++ cls isSpace Star ++ spanClose.

(** [/<section\s+class=\x22post-content\x22>([\s\S]*?)<\/section>/i] *)
Definition contentRe : regex :=
  lit "<" ++ litCI "section" ++ cls isSpace Plus ++ litCI "class=" ++ chr dq
  ++ litCI "post-content" ++ chr dq ++ lit ">" ++ grp anyChar LazyStar
  ++ lit "</" ++ litCI "section" ++ lit ">".

(** [/<link\s+rel=\x22canonical\x22\s+href=\x22([^\x22]+)\x22/i] *)
Definition canonicalRe : regex :=
  lit "<" ++ litCI "link" ++ cls isSpace Plus ++ litCI "rel=" ++ chr dq
  ++ litCI "canonical" ++ chr dq ++ cls isSpace Plus ++ litCI "href=" ++ chr dq
  ++ grp notDq Plus ++ chr dq.

(** [/\/read\.cgi\/[^\/]+\/(\d+)\//] *)
Definition keyRe : regex :=
  lit "/read.cgi/" ++ cls (noneOf "/") Plus ++ lit "/" ++ grp isDigit Plus
  ++ lit "/".

Section HtmlParser.
Variable unescapeHtml : jsstring -> jsstring.

Definition extractNameAndMail (postHtml : jsstring) : jsstring * jsstring :=
  let mail :=
    match matchRe mailRe postHtml with
    | Some (_, mailMatch) => trim (unescapeHtml (group 1 mailMatch))
    | None => []
    end in
  let name :=
    match matchRe usernameRe postHtml with
    | Some (_, usernameMatch) =>
        let block := group 1 usernameMatch in
        match matchRe nameAnchorRe block with
        | Some (_, anchorMatch) => group 1 anchorMatch
        | None => replaceAll tagRe (fun _ => []) block
        end
    | None => []
    end in
  let name := trim (unescapeHtml name) in
  (name, mail).

Definition postOfBlock (block : jsstring) : Post :=
  let (name, mail) := extractNameAndMail block in
  let date :=
    match matchRe dateRe block with
    | Some (_, dateMatch) => trim (unescapeHtml (group 1 dateMatch))
    | None => []
    end in
  let id :=
    match matchRe uidRe block with
    | Some (_, uidMatch) => trim (unescapeHtml (group 1 uidMatch))
    | None => []
    end in
  let bodyHtml :=
    match matchRe contentRe block with
    | Some (_, contentMatch) => group 1 contentMatch
    | None => []
    end in
  let message := stripTagsKeepBrA bodyHtml in
  mkPost (orElse name []) mail date id message.

(** The loop over [matches]: block [i] runs from its own start to the
    start of the next match, the last one to the end of the text. *)
Fixpoint blocksFrom (htmlText : jsstring) (starts : list nat)
  : list jsstring :=
  match starts with
  | [] => []
  | start :: later =>
      let stop := match later with
                  | next :: _ => next
                  | [] => length htmlText
                  end in
      substring start stop htmlText :: blocksFrom htmlText later
  end.

Definition parseHtmlPosts (htmlText : jsstring) : list Post :=
  let matches := matchAllIdx divPostRegex htmlText in
  fold_left (fun posts block => posts ++ [postOfBlock block])
            (blocksFrom htmlText matches) [].
End HtmlParser.

Definition extractThreadKey (htmlText : jsstring) : jsstring :=
  match matchRe canonicalRe htmlText with
  | Some (_, canonicalMatch) =>
      match matchRe keyRe (group 1 canonicalMatch) with
      | Some (_, keyMatch) => group 1 keyMatch
      | None => []
      end
  | None => []
  end.

(** ** The serializer inside [convertHtmlToDat] *)

Definition datLine (p : Post) : jsstring :=
  name p ++ sep ++ mail p ++ sep ++ date p
  ++ (if isEmpty (id p) then [] else js " ID:" ++ id p)
  ++ sep ++ message p ++ sep.

Definition serializeDat (posts : list Post) : jsstring :=
  let datLines := map datLine posts in
  join lf datLines ++ (if 0 <? length datLines then lf else []).

Definition convertHtmlToDat (unescapeHtml : jsstring -> jsstring)
  (htmlText : jsstring) : jsstring * jsstring :=
  let posts := parseHtmlPosts unescapeHtml htmlText in
  let threadKey := extractThreadKey htmlText in
  (serializeDat posts, threadKey).

(** ** The earlier page ([src/app/page.tsx])

    Its [parseDatFile] differs in one place: the message has every
    [<br>] turned into a line feed. *)
(** [message.replace(/<br>/g, '\n')] on a post. *)
Definition brToLf (p : Post) : Post :=
  mkPost (name p) (mail p) (date p) (id p)
         (replaceAll brRe (fun _ => lf) (message p)).

Module PlainText.
Definition postOfParts (parts : list jsstring) : Post :=
  brToLf (postOfParts parts).

Definition pushLine (parsedPosts : list Post) (line : jsstring) : list Post :=
  let parts := split sep line in
  if 4 <=? length parts
  then parsedPosts ++ [postOfParts parts]
  else parsedPosts.

Definition parseDatFile (content : jsstring) : list Post :=
  fold_left pushLine (filter nonBlank (split lf content)) [].
End PlainText.

(** ** The state of the page and its synchronous handlers *)

Module Page.
Record State := mkState {
  threadUrl : jsstring;
  datUrl : jsstring;
  posts : list Post;
  error : jsstring;
  isDatOchi : bool;
  htmlUrl : jsstring;
  isConverting : bool
}.

Definition setError (e : jsstring) (st : State) : State :=
  mkState (threadUrl st) (datUrl st) (posts st) e (isDatOchi st) (htmlUrl st)
          (isConverting st).

Definition setDatUrl (u : jsstring) (st : State) : State :=
  mkState (threadUrl st) u (posts st) (error st) (isDatOchi st) (htmlUrl st)
          (isConverting st).
End Page.

(** The message of [handleConvert] on a text that is no thread URL, in
    UTF-16 code units. *)
Definition invalidUrlMessage : jsstring :=
  [28961; 21177; 12394; 85; 82; 76; 12391; 12377; 12290; 53; 99; 104; 12398;
   12473; 12524; 12483; 12489; 85; 82; 76; 12434; 20837; 21147; 12375; 12390;
   12367; 12384; 12373; 12356; 12290]%N.

(** [handleConvert]: the state updates are applied in the order of the
    calls; [threadUrl] and [isDatOchi] are read from the state of the
    render.  [if (converted)] takes [null] and the empty string alike. *)
Definition handleConvert (st : Page.State) : Page.State :=
  let st1 := Page.setError [] st in
  let converted := convertToDatUrl (Page.threadUrl st) (Page.isDatOchi st) in
  match converted with
  | Some c =>
      if isEmpty c
      then Page.setDatUrl [] (Page.setError invalidUrlMessage st1)
      else Page.setDatUrl c st1
  | None => Page.setDatUrl [] (Page.setError invalidUrlMessage st1)
  end.

(** [datUrl.split('/').pop() || 'thread.dat'], the file name given to
    the download in [handleDownload]. *)
Definition datFileName (datUrl : jsstring) : jsstring :=
  orElse (last (split (js "/") datUrl) []) (js "thread.dat").

(** The file name given to the converted page in [handleHtmlConvert]:
    [threadKey || 'thread'] followed by [.dat]. *)
Definition htmlFileName (threadKey : jsstring) : jsstring :=
  orElse threadKey (js "thread") ++ js ".dat".

(** ** [convertToDatUrl] of the earlier page *)

(** [/https?:\/\/([^\/]+)\.5ch\.net\/test\/read\.cgi\/([^\/]+)\/(\d+)/] *)
Definition url5chRe : regex :=
  lit "http" ++ cls (oneOf "s") Opt ++ lit "://"
  ++ grp (noneOf "/") Plus ++ lit ".5ch.net" ++ urlTail.

Module Earlier.
Definition convertToDatUrl (url : jsstring) : option jsstring :=
  match matchRe url5chRe url with
  | Some (_, m) =>
      let server := group 1 m in
      let board := group 2 m in
      let threadId := group 3 m in
      Some (js "https://" ++ server ++ js ".5ch.net/" ++ board ++ js "/dat/"
            ++ threadId ++ js ".dat")
  | None => None
  end.
End Earlier.

(** ** Predicates used to state the properties *)

(** [s.includes(sub)] *)
Fixpoint contains (sub s : jsstring) : bool :=
  (startsWith sub s
   || match s with
      | [] => false
      | _ :: s' => contains sub s'
      end)%bool.

(** The last code unit of [w], or [prev] when [w] is empty. *)
Definition lastOr (prev : option char) (w : jsstring) : option char :=
  fold_left (fun _ c => Some c) w prev.

(** Neither the first nor the last code unit is white space. *)
Definition trimmed (s : jsstring) : bool :=
  match s with
  | [] => true
  | c :: _ => (negb (isSpace c) && negb (isSpace (last s c)))%bool
  end.

(** Puts one more code unit in front of the first field. *)
Definition consHead (c : char) (fs : list jsstring) : list jsstring :=
  match fs with
  | f :: fs' => (c :: f) :: fs'
  | [] => [[c]]
  end.

(** The lines of a dat text that yield a post. *)
Definition keptLine (line : jsstring) : bool :=
  (nonBlank line && (4 <=? length (split sep line)))%bool.

(** The result of a group: its text is recorded when it captures. *)
Definition keep (cap : bool) (w : jsstring) (x : result) : result :=
  if cap then Res (w :: caps x) (rest x) else x.

(** The pattern after the scheme of [urlRe]. *)
Definition urlHost : regex := grp (noneOf "/") Plus ++ urlAfterServer.

Definition notSlash (c : char) : bool := noneOf "/" c.

Definition startsWithDigit (s : jsstring) : bool :=
  match s with
  | c :: _ => isDigit c
  | [] => false
  end.

(** [url] reads scheme://server.domain/test/read.cgi/board/threadId and
    then [after], which does not go on with a digit. *)
Definition isThreadUrl (url scheme server domain board threadId after : jsstring)
  : Prop :=
  url = scheme ++ js "://" ++ server ++ js "." ++ domain
        ++ js "/test/read.cgi/" ++ board ++ js "/" ++ threadId ++ after
  /\ (scheme = js "http" \/ scheme = js "https")
  /\ server <> [] /\ forallb notSlash server = true
  /\ domain <> [] /\ forallb notSlash domain = true
  /\ board <> [] /\ forallb notSlash board = true
  /\ threadId <> [] /\ forallb isDigit threadId = true
  /\ startsWithDigit after = false.

(** Some part of [url] has the shape of a thread URL. *)
Definition hasThreadUrl (url : jsstring) : Prop :=
  exists before scheme server domain board threadId after,
    url = before ++ scheme ++ js "://" ++ server ++ js "." ++ domain
          ++ js "/test/read.cgi/" ++ board ++ js "/" ++ threadId ++ after
    /\ isThreadUrl (scheme ++ js "://" ++ server ++ js "." ++ domain
          ++ js "/test/read.cgi/" ++ board ++ js "/" ++ threadId ++ after)
         scheme server domain board threadId after.

(** The two [ID:] patterns of the dat parser, with and without group. *)
Definition idReC (cap : bool) : regex :=
  litS (js "ID:") ++ [Atom notSpace Plus cap].

(** [s] starts with [ID:] and one code unit that is not white space. *)
Definition startsId (s : jsstring) : bool :=
  (startsWith (js "ID:") s
   && match skipn 3 s with
      | x :: _ => notSpace x
      | [] => false
      end)%bool.

(** Some position of [s] starts such a token. *)
Fixpoint hasIdToken (s : jsstring) : bool :=
  (startsId s
   || match s with
      | [] => false
      | _ :: s' => hasIdToken s'
      end)%bool.

(** A field value that holds neither the field separator nor a line
    feed. *)
Definition cleanField (f : jsstring) : bool :=
  (negb (contains sep f) && negb (contains lf f))%bool.

(** The posts that the dat format can carry as they are. *)
Definition representable (p : Post) : Prop :=
  name p <> []
  /\ cleanField (name p) = true /\ cleanField (mail p) = true
  /\ cleanField (date p) = true /\ cleanField (id p) = true
  /\ cleanField (message p) = true
  /\ trimmed (date p) = true /\ hasIdToken (date p) = false
  /\ forallb notSpace (id p) = true.

(** The third field of the line of a post. *)
Definition dateAndIdOf (p : Post) : jsstring :=
  date p ++ (if isEmpty (id p) then [] else js " ID:" ++ id p).

(** The code units on which a match of the pattern can begin. *)
Fixpoint canStart (r : regex) (c : char) : bool :=
  match r with
  | [] => true
  | WordB :: r' => canStart r' c
  | Atom p q _ :: r' =>
      match q with
      | One | Plus | LazyPlus => p c
      | Opt | Star | LazyStar => (p c || canStart r' c)%bool
      end
  end.

(** The pattern can match the empty text. *)
Fixpoint nullable (r : regex) : bool :=
  match r with
  | [] => true
  | WordB :: r' => nullable r'
  | Atom _ q _ :: r' =>
      match q with
      | One | Plus | LazyPlus => false
      | Opt | Star | LazyStar => nullable r'
      end
  end.

(** The blanks collapsed by [stripTagsKeepBrA]. *)
Definition isBlank (c : char) : bool :=
  (N.eqb c 32 || N.eqb c 9 || N.eqb c 12 || N.eqb c 11)%bool.

(** A code unit of running text: not the start of a tag, no carriage
    return, no NUL, and no blank other than the space. *)
Definition textChar (c : char) : bool :=
  (negb (N.eqb c 60) && negb (N.eqb c 13) && negb (N.eqb c 0)
   && negb (N.eqb c 9) && negb (N.eqb c 12) && negb (N.eqb c 11))%bool.

(** No two blanks in a row. *)
Fixpoint singleSpaced (s : jsstring) : bool :=
  match s with
  | c :: s' =>
      (negb (isBlank c && match s' with d :: _ => isBlank d | [] => false end)
       && singleSpaced s')%bool
  | [] => true
  end.

(** The callback of the break replacement of the earlier page, and the
    text it leaves. *)
Definition brCallback (_ : unit) (_ : list jsstring) : unit * jsstring :=
  (tt, lf).

Definition brOut (s : jsstring) : jsstring :=
  snd (replaceAll_go brRe brCallback 0 tt None s).

(** The positions of [l] go up strictly, from [lo] on and below [hi]. *)
Fixpoint ascending (lo : nat) (l : list nat) (hi : nat) : Prop :=
  match l with
  | [] => True
  | a :: l' => lo <= a /\ a < hi /\ ascending (S a) l' hi
  end.

(** Posts whose messages hold no break. *)
Definition plainPosts : list Post :=
  [ mkPost (js "name") (js "sage") (js "2020/01/01") (js "abc") (js "hello");
    mkPost nanashi [] (js "2020") [] (js "x") ].

(** ** Sample inputs *)

Definition eggUrl : jsstring :=
  js "https://egg.5ch.net/test/read.cgi/news/1234567890/".

Definition eggUrlHttp : jsstring :=
  js "http://egg.5ch.net/test/read.cgi/news/1234567890/".

Definition normalizeInput : jsstring :=
  js "a<br>b<span>c</span><a href=" ++ [dq] ++ js "x" ++ [dq] ++ js ">d</a>".

Definition normalizeOutput : jsstring :=
  js "a<br>bc<a href=" ++ [dq] ++ js "x" ++ [dq] ++ js ">d</a>".

Definition threeFieldLines : jsstring :=
  js "a<>b<>c" ++ lf ++ js "  " ++ lf ++ js "d<>e".

Definition blankNameLine : jsstring := js "  <>sage<>2020/01/01<>hello".

Definition titledLine : jsstring :=
  js "name<>sage<>2020/01/01 ID:abc<>hello<>thread title".

(** A decoding for texts that hold no character reference, no carriage
    return and no NUL: on those the [textarea] of [unescapeHtml] gives
    the text back as it is (the host rewrites carriage returns and NUL
    and decodes the references of other texts). *)
Definition noReferences (text : jsstring) : jsstring := text.

Definition anonymousPostHtml : jsstring :=
  js "<div id=" ++ [dq] ++ js "1" ++ [dq] ++ js " class=" ++ [dq] ++ js "post"
  ++ [dq] ++ js "><section class=" ++ [dq] ++ js "post-content" ++ [dq]
  ++ js ">hello</section></div>".

(** A page of two posts, the first with mail, date, id and an anchor in
    its body, the second with a bare name. *)
Definition sampleHtml : jsstring :=
  js "<html><div id=" ++ [dq] ++ js "1" ++ [dq] ++ js " class=" ++ [dq]
  ++ js "clear post" ++ [dq] ++ js "><span class=" ++ [dq] ++ js "postusername"
  ++ [dq] ++ js "><b><a href=" ++ [dq] ++ js "mailto:sage" ++ [dq]
  ++ js ">nanashi</a></b></span><span class=" ++ [dq] ++ js "date" ++ [dq]
  ++ js "> 2020/01/01 00:00:00 </span><span class=" ++ [dq] ++ js "uid" ++ [dq]
  ++ js ">ID:abcd</span><section class=" ++ [dq] ++ js "post-content" ++ [dq]
  ++ js "> hello <a href=" ++ [dq] ++ js "../x" ++ [dq] ++ js " class=" ++ [dq]
  ++ js "reply_link" ++ [dq] ++ js ">x</a> <BR /> w<wbr>orld </section></div>"
  ++ js "<div id=" ++ [dq] ++ js "2" ++ [dq] ++ js " class=" ++ [dq] ++ js "post"
  ++ [dq] ++ js "><span class=" ++ [dq] ++ js "postusername" ++ [dq]
  ++ js "><b>foo</b></span><section class=" ++ [dq] ++ js "post-content" ++ [dq]
  ++ js ">second</section></div>".

(** No field value of the post holds the field separator. *)
Definition sepFree (p : Post) : Prop :=
  contains sep (name p) = false /\ contains sep (mail p) = false
  /\ contains sep (date p) = false /\ contains sep (id p) = false
  /\ contains sep (message p) = false.

Definition emptyPost : Post := mkPost [] [] [] [] [].

Definition samplePosts : list Post :=
  [ mkPost (js "name") (js "sage") (js "2020/01/01(Wed) 12:00:00.00")
           (js "abc") (js "hello<br>world");
    mkPost nanashi [] (js "2020") [] (js "x") ].

(** * Strings *)

Lemma str_eqb_neq (a b : jsstring) : str_eqb a b = false <-> a <> b.
Proof.
  unfold str_eqb. destruct (list_eq_dec N.eq_dec a b); split; congruence.
Qed.

Lemma startsWith_app (p s : jsstring) : startsWith p (p ++ s) = true.
Proof.
  induction p as [|a p IH]; simpl; [reflexivity|].
  now rewrite N.eqb_refl, IH.
Qed.

Lemma startsWith_inv (p s : jsstring) :
  startsWith p s = true -> exists t, s = p ++ t.
Proof.
  revert s. induction p as [|a p IH]; intros s H.
  - now exists s.
  - destruct s as [|b s]; simpl in H; [discriminate|].
    apply andb_prop in H. destruct H as [Hab Hp].
    apply N.eqb_eq in Hab. subst b.
    destruct (IH _ Hp) as [t ->]. now exists t.
Qed.

Lemma dropWhile_keeps (p : char -> bool) (s : jsstring) (c : char) :
  In c s -> p c = false ->
  exists d t, dropWhile p s = d :: t /\ p d = false.
Proof.
  induction s as [|a s IH]; simpl; intros Hin Hc; [contradiction|].
  destruct (p a) eqn:Ha.
  - destruct Hin as [->|Hin]; [congruence|]. now apply IH.
  - now exists a, s.
Qed.

Lemma dropWhile_fixed (p : char -> bool) (c : char) (s : jsstring) :
  p c = false -> dropWhile p (c :: s) = c :: s.
Proof. intros H. simpl. now rewrite H. Qed.

Lemma dropWhile_all (p : char -> bool) (s : jsstring) :
  forallb p s = true -> dropWhile p s = [].
Proof.
  induction s as [|a s IH]; simpl; [reflexivity|].
  intros H. apply andb_prop in H. destruct H as [Ha Hs].
  rewrite Ha. now apply IH.
Qed.

(** A line holding one code unit that is not white space is kept by
    the [filter(line => line.trim())] of the dat parser. *)
Lemma nonBlank_of_char (line : jsstring) (c : char) :
  In c line -> isSpace c = false -> nonBlank line = true.
Proof.
  intros Hin Hc. unfold nonBlank, trim, trimEnd, trimStart.
  destruct (dropWhile_keeps isSpace line c Hin Hc) as (d & t & -> & Hd).
  assert (Hin' : In d (rev (d :: t))) by (apply in_rev; rewrite rev_involutive; now left).
  destruct (dropWhile_keeps isSpace _ d Hin' Hd) as (e & u & -> & _).
  simpl. now destruct (rev u ++ [e]) eqn:E; [destruct (rev u); discriminate|].
Qed.

Lemma nonBlank_all_space (line : jsstring) :
  forallb isSpace line = true -> nonBlank line = false.
Proof.
  intros H. unfold nonBlank, trim, trimEnd, trimStart.
  now rewrite (dropWhile_all _ _ H).
Qed.

Lemma not_all_space (line : jsstring) :
  forallb isSpace line = false ->
  exists c, In c line /\ isSpace c = false.
Proof.
  induction line as [|c line IH]; [discriminate|]. cbn [forallb].
  destruct (isSpace c) eqn:Hc.
  - intros H. destruct (IH H) as (d & Hd & Hs). exists d. split; [now right|].
    exact Hs.
  - intros _. exists c. split; [now left|exact Hc].
Qed.

(** The lines that [filter(line => line.trim())] keeps are those that
    hold a code unit other than white space. *)
Lemma nonBlank_spec (line : jsstring) :
  nonBlank line = negb (forallb isSpace line).
Proof.
  destruct (forallb isSpace line) eqn:E.
  - now apply nonBlank_all_space.
  - destruct (not_all_space line E) as (c & Hin & Hc).
    now apply (nonBlank_of_char line c).
Qed.

(** [trim] leaves alone a string that neither starts nor ends with
    white space. *)
Lemma trim_trimmed (s : jsstring) : trimmed s = true -> trim s = s.
Proof.
  destruct s as [|c s]; [reflexivity|].
  unfold trimmed. intros H. apply andb_prop in H. destruct H as [Hc Hl].
  apply negb_true_iff in Hc. apply negb_true_iff in Hl.
  unfold trim, trimStart, trimEnd. rewrite (dropWhile_fixed _ _ _ Hc).
  destruct (exists_last (l := c :: s)) as (u & e & E); [discriminate|].
  rewrite E in *. rewrite last_last in Hl.
  rewrite rev_app_distr. simpl. rewrite Hl. simpl.
  now rewrite rev_involutive.
Qed.

(** ** [split] on the two separators of the dat format *)

Lemma split_cons (sp : jsstring) (c : char) (s : jsstring) :
  split sp (c :: s) =
  if startsWith sp (c :: s)
  then [] :: split_go sp (length sp - 1) s
  else consHead c (split sp s).
Proof. reflexivity. Qed.

Lemma sep_chars : sep = [60; 62]%N.
Proof. reflexivity. Qed.

Lemma split_sep_one (c : char) : split sep [c] = [[c]].
Proof.
  rewrite split_cons, sep_chars. cbn [startsWith].
  now rewrite andb_false_r.
Qed.

Lemma split_sep_two (c d : char) (s : jsstring) :
  split sep (c :: d :: s) =
  if ((c =? 60) && (d =? 62))%N%bool then [] :: split sep s
  else consHead c (split sep (d :: s)).
Proof.
  rewrite split_cons, sep_chars. cbn [startsWith length Nat.sub split_go].
  rewrite andb_true_r, (N.eqb_sym 60 c), (N.eqb_sym 62 d).
  reflexivity.
Qed.

Lemma split_lf_cons (c : char) (s : jsstring) :
  split lf (c :: s) =
  if (c =? 10)%N then [] :: split lf s else consHead c (split lf s).
Proof.
  rewrite split_cons. unfold lf. cbn [startsWith length Nat.sub].
  now rewrite andb_true_r, (N.eqb_sym 10 c).
Qed.

Lemma contains_cons (sp : jsstring) (c : char) (s : jsstring) :
  contains sp (c :: s) = (startsWith sp (c :: s) || contains sp s)%bool.
Proof. reflexivity. Qed.

Lemma contains_sep_one (c : char) : contains sep [c] = false.
Proof.
  rewrite contains_cons, sep_chars. cbn [startsWith contains].
  now rewrite andb_false_r.
Qed.

Lemma contains_sep_two (c d : char) (s : jsstring) :
  contains sep (c :: d :: s) =
  (((c =? 60) && (d =? 62))%N || contains sep (d :: s))%bool.
Proof.
  rewrite contains_cons. f_equal. rewrite sep_chars. cbn [startsWith].
  now rewrite andb_true_r, (N.eqb_sym 60 c), (N.eqb_sym 62 d).
Qed.

Lemma contains_lf_cons (c : char) (s : jsstring) :
  contains lf (c :: s) = ((c =? 10)%N || contains lf s)%bool.
Proof.
  rewrite contains_cons. f_equal. unfold lf. cbn [startsWith].
  now rewrite andb_true_r, (N.eqb_sym 10 c).
Qed.

Lemma split_not_nil (sp : jsstring) (k : nat) (s : jsstring) :
  split_go sp k s <> [].
Proof.
  revert k. induction s as [|c s IH]; intros k; simpl; [discriminate|].
  destruct k; [|apply IH].
  destruct (startsWith sp (c :: s)); [discriminate|].
  destruct (split_go sp 0 s); discriminate.
Qed.

(** A field free of the separator, followed by the separator, is cut
    off as it stands. *)
Lemma split_sep_field (f t : jsstring) :
  contains sep f = false -> split sep (f ++ sep ++ t) = f :: split sep t.
Proof.
  induction f as [|c f IH]; intros Hf.
  - rewrite sep_chars. cbn [app]. rewrite split_sep_two. reflexivity.
  - destruct f as [|d f].
    + rewrite sep_chars. cbn [app]. rewrite split_sep_two.
      change (60 =? 62)%N with false. rewrite andb_false_r.
      rewrite split_sep_two. reflexivity.
    + rewrite contains_sep_two in Hf. apply orb_false_elim in Hf.
      destruct Hf as [Hcd Hf].
      change ((c :: d :: f) ++ sep ++ t) with (c :: d :: (f ++ sep ++ t)).
      rewrite split_sep_two, Hcd.
      change (d :: f ++ sep ++ t) with ((d :: f) ++ sep ++ t).
      now rewrite (IH Hf).
Qed.

Lemma split_sep_last (f : jsstring) :
  contains sep f = false -> split sep f = [f].
Proof.
  induction f as [|c f IH]; intros Hf; [reflexivity|].
  destruct f as [|d f]; [apply split_sep_one|].
  rewrite contains_sep_two in Hf. apply orb_false_elim in Hf.
  destruct Hf as [Hcd Hf]. rewrite split_sep_two, Hcd.
  now rewrite (IH Hf).
Qed.

Lemma join_cons (sp f : jsstring) (fs : list jsstring) :
  fs <> [] -> join sp (f :: fs) = f ++ sp ++ join sp fs.
Proof. destruct fs; [congruence|reflexivity]. Qed.

Lemma join_consHead (sp : jsstring) (c : char) (fs : list jsstring) :
  fs <> [] -> join sp (consHead c fs) = c :: join sp fs.
Proof.
  destruct fs as [|f [|g fs]]; [congruence| |]; reflexivity.
Qed.

(** Induction two code units at a time, the step of a two-unit
    separator. *)
Lemma pair_ind (P : jsstring -> Prop) :
  P [] -> (forall c, P [c]) ->
  (forall c d s, P s -> P (d :: s) -> P (c :: d :: s)) ->
  forall s, P s.
Proof.
  intros H0 H1 H2 s.
  enough (H : P s /\ forall c, P (c :: s)) by apply H.
  induction s as [|d s [IHs IHc]]; split; auto.
Qed.

(** Joining the fields again gives the line back. *)
Lemma join_split_sep (s : jsstring) : join sep (split sep s) = s.
Proof.
  induction s as [|c|c d s IH1 IH2] using pair_ind;
    [reflexivity|now rewrite split_sep_one|].
  rewrite split_sep_two.
  destruct ((c =? 60) && (d =? 62))%N%bool eqn:E.
  - apply andb_prop in E. destruct E as [Hc Hd].
    apply N.eqb_eq in Hc, Hd. subst c d.
    rewrite join_cons by apply split_not_nil.
    now rewrite IH1.
  - rewrite join_consHead by apply split_not_nil. now rewrite IH2.
Qed.

Lemma contains_consHead (c : char) (fs : list jsstring) :
  Forall (fun f => contains sep f = false) fs ->
  (forall f fs', fs = f :: fs' ->
     match f with d :: _ => ((c =? 60) && (d =? 62))%N%bool = false | [] => True end) ->
  Forall (fun f => contains sep f = false) (consHead c fs).
Proof.
  intros HF Hhd. destruct fs as [|f fs']; simpl.
  - constructor; [apply contains_sep_one|constructor].
  - inversion HF as [|? ? Hf HF']; subst. constructor; [|assumption].
    destruct f as [|d f]; [apply contains_sep_one|].
    rewrite contains_sep_two, Hf. now rewrite (Hhd _ _ eq_refl).
Qed.

(** The head of the first field of [split sep (d :: s)] is [d] unless a
    separator starts there. *)
Lemma split_sep_head (d : char) (s : jsstring) :
  match split sep (d :: s) with
  | (e :: _) :: _ => e = d
  | _ => True
  end.
Proof.
  destruct s as [|e s]; [now rewrite split_sep_one|].
  rewrite split_sep_two. destruct ((d =? 60) && (e =? 62))%N%bool; [exact I|].
  destruct (split sep (e :: s)); reflexivity.
Qed.

(** No field produced by [split] holds the separator. *)
Lemma split_sep_clean (s : jsstring) :
  Forall (fun f => contains sep f = false) (split sep s).
Proof.
  induction s as [|c|c d s IH1 IH2] using pair_ind.
  - repeat constructor.
  - rewrite split_sep_one. constructor; [apply contains_sep_one|constructor].
  - rewrite split_sep_two.
    destruct ((c =? 60) && (d =? 62))%N%bool eqn:E.
    + constructor; [reflexivity|assumption].
    + apply contains_consHead; [assumption|].
      intros f fs' Hs. pose proof (split_sep_head d s) as Hh.
      rewrite Hs in Hh. destruct f as [|e f]; [exact I|]. now subst e.
Qed.

(** The same for the line separator. *)
Lemma split_lf_line (f t : jsstring) :
  contains lf f = false -> split lf (f ++ lf ++ t) = f :: split lf t.
Proof.
  induction f as [|c f IH]; intros Hf.
  - unfold lf. cbn [app]. now rewrite split_lf_cons.
  - rewrite contains_lf_cons in Hf. apply orb_false_elim in Hf.
    destruct Hf as [Hc Hf]. cbn [app]. rewrite split_lf_cons, Hc.
    now rewrite (IH Hf).
Qed.

Lemma split_lf_last (f : jsstring) :
  contains lf f = false -> split lf f = [f].
Proof.
  induction f as [|c f IH]; intros Hf; [reflexivity|].
  rewrite contains_lf_cons in Hf. apply orb_false_elim in Hf.
  destruct Hf as [Hc Hf]. rewrite split_lf_cons, Hc.
  now rewrite (IH Hf).
Qed.

Lemma contains_lf_app (a b : jsstring) :
  contains lf (a ++ b) = (contains lf a || contains lf b)%bool.
Proof.
  induction a as [|c a IH]; [reflexivity|].
  cbn [app]. rewrite !contains_lf_cons, IH. now rewrite orb_assoc.
Qed.

(** * The dat parser, line by line *)

Lemma fold_pushLine (lines : list jsstring) (acc : list Post) :
  fold_left pushLine lines acc =
  acc ++ map (fun line => postOfParts (split sep line))
             (filter (fun line => 4 <=? length (split sep line)) lines).
Proof.
  revert acc. induction lines as [|line lines IH]; intros acc;
    cbn [fold_left filter map].
  - now rewrite app_nil_r.
  - rewrite IH. unfold pushLine.
    destruct (4 <=? length (split sep line)); cbn [map]; [|reflexivity].
    now rewrite <- app_assoc.
Qed.

Lemma filter_filter (A : Type) (f g : A -> bool) (l : list A) :
  filter g (filter f l) = filter (fun x => (f x && g x)%bool) l.
Proof.
  induction l as [|x l IH]; simpl; [reflexivity|].
  destruct (f x); simpl; [destruct (g x)|]; now rewrite IH.
Qed.

Lemma parseDatFile_map (content : jsstring) :
  parseDatFile content =
  map (fun line => postOfParts (split sep line))
      (filter keptLine (split lf content)).
Proof.
  unfold parseDatFile. rewrite fold_pushLine, filter_filter. reflexivity.
Qed.

Lemma In_sep_of_fields (line f0 f1 : jsstring) (more : list jsstring) :
  split sep line = f0 :: f1 :: more -> In 60%N line.
Proof.
  intros H. rewrite <- (join_split_sep line), H.
  rewrite join_cons by discriminate.
  apply in_or_app. right. rewrite sep_chars. now left.
Qed.

(** A line without line feed that splits into four fields or more
    yields exactly the post of its fields. *)
Lemma parseDatFile_one_line (line f0 f1 f2 f3 : jsstring)
  (more : list jsstring) :
  contains lf line = false ->
  split sep line = f0 :: f1 :: f2 :: f3 :: more ->
  parseDatFile line = [postOfParts (f0 :: f1 :: f2 :: f3 :: more)].
Proof.
  intros Hlf Hs. rewrite parseDatFile_map, (split_lf_last _ Hlf).
  cbn [filter]. unfold keptLine.
  rewrite (nonBlank_of_char line 60%N (In_sep_of_fields _ _ _ _ Hs) eq_refl).
  rewrite Hs. cbn [length Nat.leb andb map]. now rewrite Hs.
Qed.

Lemma orElse_nonempty (a b : jsstring) : b <> [] -> orElse a b <> [].
Proof. unfold orElse. destruct a; simpl; congruence. Qed.

(** * The matcher *)

Section Repetition.
Variable p : char -> bool.
Variable k : cont.

Lemma greedy_sound (s : jsstring) : forall prev w x,
  greedy p k prev s = Some (w, x) ->
  forallb p w = true /\
  exists t, s = w ++ t /\ k (lastOr prev w) t = Some x.
Proof.
  induction s as [|c s IH]; intros prev w x H.
  - simpl in H. destruct (k prev []) eqn:E; simpl in H; [|discriminate].
    inversion H; subst. split; [reflexivity|]. now exists [].
  - simpl in H.
    assert (Hstop : nothing (k prev (c :: s)) = Some (w, x) ->
              forallb p w = true /\
              exists t, c :: s = w ++ t /\ k (lastOr prev w) t = Some x).
    { intros E. destruct (k prev (c :: s)) eqn:Ek; simpl in E; [|discriminate].
      inversion E; subst. split; [reflexivity|]. now exists (c :: s). }
    destruct (p c) eqn:Hc; [|now apply Hstop].
    destruct (greedy p k (Some c) s) as [[w1 x1]|] eqn:G; [|now apply Hstop].
    inversion H; subst. destruct (IH _ _ _ G) as (Hw & t & -> & Hk).
    split; [simpl; now rewrite Hc|]. now exists t.
Qed.

Lemma greedy_complete (w t : jsstring) : forall prev,
  forallb p w = true -> k (lastOr prev w) t <> None ->
  greedy p k prev (w ++ t) <> None.
Proof.
  induction w as [|c w IH]; intros prev Hw Hk.
  - simpl in *. destruct t as [|c t]; simpl.
    + destruct (k prev []); simpl; congruence.
    + destruct (p c); [destruct (greedy p k (Some c) t) as [[? ?]|]|];
        try discriminate; destruct (k prev (c :: t)); simpl; congruence.
  - simpl in Hw. apply andb_prop in Hw. destruct Hw as [Hc Hw].
    cbn [app greedy]. rewrite Hc.
    specialize (IH (Some c) Hw Hk).
    destruct (greedy p k (Some c) (w ++ t)) as [[? ?]|]; congruence.
Qed.

(** The greedy loop settles on the longest repetition after which the
    rest of the pattern succeeds. *)
Lemma greedy_longest (s : jsstring) : forall prev w x,
  greedy p k prev s = Some (w, x) ->
  forall u t, s = w ++ u ++ t -> u <> [] -> forallb p u = true ->
  k (lastOr prev (w ++ u)) t = None.
Proof.
  induction s as [|c s IH]; intros prev w x H u t Hs Hu Hp.
  - destruct w, u; try discriminate; congruence.
  - simpl in H.
    assert (Hstop : greedy p k (Some c) s = None -> p c = true ->
              nothing (k prev (c :: s)) = Some (w, x) ->
              k (lastOr prev (w ++ u)) t = None).
    { intros G Hc E. destruct (k prev (c :: s)); simpl in E; [|discriminate].
      inversion E; subst. simpl in Hs. destruct u as [|d u]; [congruence|].
      inversion Hs; subst. simpl in Hp. apply andb_prop in Hp.
      destruct (k (lastOr prev ([] ++ d :: u)) t) eqn:Ek; [|reflexivity].
      exfalso. apply (greedy_complete u t (Some d)); [apply Hp| |exact G].
      simpl in Ek. unfold lastOr. simpl. unfold lastOr in Ek. congruence. }
    destruct (p c) eqn:Hc.
    + destruct (greedy p k (Some c) s) as [[w1 x1]|] eqn:G;
        [|now apply Hstop].
      inversion H; subst. simpl in Hs. inversion Hs; subst.
      apply (IH _ _ _ G); auto.
    + destruct (k prev (c :: s)); simpl in H; [|discriminate].
      inversion H; subst. simpl in Hs. destruct u as [|d u]; [congruence|].
      inversion Hs; subst. simpl in Hp. apply andb_prop in Hp.
      destruct Hp. congruence.
Qed.

Lemma plus_sound (s : jsstring) (w : jsstring) (x : result) :
  once p (greedy p k) s = Some (w, x) ->
  w <> [] /\ forallb p w = true /\
  exists t, s = w ++ t /\ k (lastOr None w) t = Some x.
Proof.
  destruct s as [|c s]; simpl; [discriminate|].
  destruct (p c) eqn:Hc; [|discriminate].
  destruct (greedy p k (Some c) s) as [[w1 x1]|] eqn:G; simpl; [|discriminate].
  intros H. inversion H; subst.
  destruct (greedy_sound _ _ _ _ G) as (Hw & t & -> & Hk).
  split; [discriminate|]. split; [simpl; now rewrite Hc|]. now exists t.
Qed.

Lemma plus_complete (w t : jsstring) :
  w <> [] -> forallb p w = true -> k (lastOr None w) t <> None ->
  once p (greedy p k) (w ++ t) <> None.
Proof.
  destruct w as [|c w]; [congruence|]. intros _ Hw Hk.
  simpl in Hw. apply andb_prop in Hw. destruct Hw as [Hc Hw].
  cbn [app once]. rewrite Hc.
  pose proof (greedy_complete w t (Some c) Hw Hk) as G.
  destruct (greedy p k (Some c) (w ++ t)) as [[? ?]|]; simpl; congruence.
Qed.

Lemma plus_longest (s : jsstring) (w : jsstring) (x : result) :
  once p (greedy p k) s = Some (w, x) ->
  forall u t, s = w ++ u ++ t -> u <> [] -> forallb p u = true ->
  k (lastOr None (w ++ u)) t = None.
Proof.
  destruct s as [|c s]; simpl; [discriminate|].
  destruct (p c) eqn:Hc; [|discriminate].
  destruct (greedy p k (Some c) s) as [[w1 x1]|] eqn:G; simpl; [|discriminate].
  intros H u t Hs Hu Hp. inversion H; subst. simpl in Hs. inversion Hs; subst.
  apply (greedy_longest _ _ _ _ G); auto.
Qed.
End Repetition.

(** ** Literal text *)

Lemma run_chr_cons (c : N) (r : regex) (prev : option char)
  (d : char) (s : jsstring) :
  run (Atom (N.eqb c) One false :: r) prev (d :: s) =
  if (c =? d)%N then run r (Some d) s else None.
Proof.
  cbn [run atom once]. destruct (c =? d)%N; [|reflexivity].
  destruct (run r (Some d) s) as [[? ?]|]; reflexivity.
Qed.

Lemma run_litS (w : jsstring) (r : regex) : forall prev s,
  run (litS w ++ r) prev s =
  if startsWith w s then run r (lastOr prev w) (skipn (length w) s) else None.
Proof.
  induction w as [|a w IH]; intros prev s; [reflexivity|].
  change (litS (a :: w) ++ r) with (Atom (N.eqb a) One false :: (litS w ++ r)).
  destruct s as [|d s]; [reflexivity|].
  rewrite run_chr_cons. cbn [startsWith length skipn].
  destruct (a =? d)%N eqn:E; [|reflexivity].
  apply N.eqb_eq in E. subst d. rewrite IH. reflexivity.
Qed.

Lemma skipn_length_app (A : Type) (a b : list A) : skipn (length a) (a ++ b) = b.
Proof. induction a; simpl; auto. Qed.

Lemma run_lit_app (w : jsstring) (r : regex) (prev : option char)
  (s : jsstring) :
  run (litS w ++ r) prev (w ++ s) = run r (lastOr prev w) s.
Proof. now rewrite run_litS, startsWith_app, skipn_length_app. Qed.

Lemma run_lit_inv (w : jsstring) (r : regex) (prev : option char)
  (s : jsstring) (x : result) :
  run (litS w ++ r) prev s = Some x ->
  exists t, s = w ++ t /\ run r (lastOr prev w) t = Some x.
Proof.
  rewrite run_litS. destruct (startsWith w s) eqn:E; [|discriminate].
  destruct (startsWith_inv _ _ E) as [t ->].
  rewrite skipn_length_app. intros H. now exists t.
Qed.

(** ** One class under [+] *)

Lemma run_plus_sound (p : char -> bool) (cap : bool) (r : regex)
  (prev : option char) (s : jsstring) (x : result) :
  run (Atom p Plus cap :: r) prev s = Some x ->
  exists w t x',
    w <> [] /\ forallb p w = true /\ s = w ++ t /\
    run r (lastOr None w) t = Some x' /\ x = keep cap w x' /\
    (forall u t', t = u ++ t' -> u <> [] -> forallb p u = true ->
       run r (lastOr None (w ++ u)) t' = None).
Proof.
  cbn [run atom]. intros H.
  destruct (once p (greedy p (run r)) s) as [[w x']|] eqn:E; [|discriminate].
  simpl in H. inversion H; subst.
  destruct (plus_sound _ _ _ _ _ E) as (Hne & Hw & t & -> & Hk).
  exists w, t, x'. repeat split; auto.
  intros u t' -> Hu Hp. apply (plus_longest _ _ _ _ _ E); auto.
Qed.

Lemma run_plus_complete (p : char -> bool) (cap : bool) (r : regex)
  (prev : option char) (w t : jsstring) :
  w <> [] -> forallb p w = true -> run r (lastOr None w) t <> None ->
  run (Atom p Plus cap :: r) prev (w ++ t) <> None.
Proof.
  intros Hne Hw Hk. cbn [run atom].
  pose proof (plus_complete p (run r) w t Hne Hw Hk) as H.
  destruct (once p (greedy p (run r)) (w ++ t)) as [[? ?]|]; simpl; congruence.
Qed.

(** ** The leftmost match *)

Lemma search_sound (r : regex) (s : jsstring) : forall prev b x,
  search r prev s = Some (b, x) ->
  exists t, s = b ++ t /\ run r (lastOr prev b) t = Some x.
Proof.
  induction s as [|c s IH]; intros prev b x H; simpl in H.
  - destruct (run r prev []) eqn:E; [|discriminate].
    inversion H; subst. now exists [].
  - destruct (run r prev (c :: s)) eqn:E.
    + inversion H; subst. now exists (c :: s).
    + destruct (search r (Some c) s) as [[b1 x1]|] eqn:G; simpl in H;
        [|discriminate].
      inversion H; subst. destruct (IH _ _ _ G) as (t & -> & Hr).
      now exists t.
Qed.

Lemma search_complete (r : regex) (b t : jsstring) : forall prev,
  run r (lastOr prev b) t <> None -> search r prev (b ++ t) <> None.
Proof.
  induction b as [|c b IH]; intros prev H.
  - simpl in *. destruct t; simpl; destruct (run r prev _); congruence.
  - cbn [app search]. destruct (run r prev (c :: b ++ t)); [discriminate|].
    specialize (IH (Some c) H).
    destruct (search r (Some c) (b ++ t)) as [[? ?]|]; simpl; congruence.
Qed.

(** Where no earlier position matches, the search moves on. *)
Lemma search_skip (r : regex) (b t : jsstring) : forall prev,
  (forall b1 b2, b = b1 ++ b2 -> b2 <> [] ->
     run r (lastOr prev b1) (b2 ++ t) = None) ->
  search r prev (b ++ t) =
  match search r (lastOr prev b) t with
  | Some (b', x) => Some (b ++ b', x)
  | None => None
  end.
Proof.
  induction b as [|c b IH]; intros prev H.
  - simpl. now destruct (search r prev t) as [[? ?]|].
  - pose proof (H [] (c :: b) eq_refl) as H0.
    cbn [app lastOr fold_left] in H0.
    cbn [app search]. rewrite H0 by discriminate.
    rewrite IH.
    + change (lastOr prev (c :: b)) with (lastOr (Some c) b).
      now destruct (search r (lastOr (Some c) b) t) as [[? ?]|].
    + intros b1 b2 -> Hb2. apply (H (c :: b1) b2 eq_refl Hb2).
Qed.

Lemma search_here (r : regex) (prev : option char) (s : jsstring)
  (x : result) :
  run r prev s = Some x -> search r prev s = Some ([], x).
Proof. intros H. destruct s; simpl; now rewrite H. Qed.

Lemma search_none (r : regex) (s : jsstring) : forall prev,
  (forall b1 b2, s = b1 ++ b2 -> run r (lastOr prev b1) b2 = None) ->
  search r prev s = None.
Proof.
  induction s as [|c s IH]; intros prev H.
  - pose proof (H [] [] eq_refl) as H0. cbn [lastOr fold_left] in H0.
    simpl. now rewrite H0.
  - pose proof (H [] (c :: s) eq_refl) as H0. cbn [lastOr fold_left] in H0.
    cbn [search]. rewrite H0.
    rewrite IH; [reflexivity|].
    intros b1 b2 ->. apply (H (c :: b1) b2 eq_refl).
Qed.

(** * The thread URL pattern *)

Lemma js_slash_test : js "/test/read.cgi/" = 47%N :: js "test/read.cgi/".
Proof. reflexivity. Qed.

(** The optional [s] of the scheme. *)
Lemma run_scheme_https (R : regex) (prev : option char) (t : jsstring) :
  run (lit "http" ++ cls (oneOf "s") Opt ++ lit "://" ++ R) prev
      (js "https://" ++ t) = run R (Some 47%N) t.
Proof.
  unfold lit. rewrite (run_lit_app (js "http") _ prev (js "s://" ++ t)).
  change (cls (oneOf "s") Opt ++ litS (js "://") ++ R)
    with (Atom (oneOf "s") Opt false :: (litS (js "://") ++ R)).
  change (js "s://" ++ t) with (115%N :: (js "://" ++ t)).
  cbn [run atom once]. change (oneOf "s" 115%N) with true. cbv iota.
  rewrite run_lit_app.
  change (lastOr (Some 115%N) (js "://")) with (Some 47%N).
  destruct (run R (Some 47%N) t) as [[? ?]|]; reflexivity.
Qed.

Lemma run_scheme_http (R : regex) (prev : option char) (t : jsstring) :
  run (lit "http" ++ cls (oneOf "s") Opt ++ lit "://" ++ R) prev
      (js "http://" ++ t) = run R (Some 47%N) t.
Proof.
  unfold lit. rewrite (run_lit_app (js "http") _ prev (js "://" ++ t)).
  change (cls (oneOf "s") Opt ++ litS (js "://") ++ R)
    with (Atom (oneOf "s") Opt false :: (litS (js "://") ++ R)).
  change (js "://" ++ t) with (58%N :: (js "//" ++ t)).
  cbn [run atom once]. change (oneOf "s" 58%N) with false. cbv iota.
  change (58%N :: js "//" ++ t) with (js "://" ++ t).
  rewrite run_lit_app.
  change (lastOr _ (js "://")) with (Some 47%N).
  destruct (run R (Some 47%N) t) as [[? ?]|]; reflexivity.
Qed.

Lemma run_scheme_inv (R : regex) (prev : option char) (s : jsstring)
  (x : result) :
  run (lit "http" ++ cls (oneOf "s") Opt ++ lit "://" ++ R) prev s = Some x ->
  exists scheme t,
    (scheme = js "http" \/ scheme = js "https") /\
    s = scheme ++ js "://" ++ t /\ run R (Some 47%N) t = Some x.
Proof.
  unfold lit. intros H. apply run_lit_inv in H. destruct H as (t1 & -> & H).
  change (cls (oneOf "s") Opt ++ litS (js "://") ++ R)
    with (Atom (oneOf "s") Opt false :: (litS (js "://") ++ R)) in H.
  cbn [run atom] in H.
  set (k := run (litS (js "://") ++ R)) in *.
  assert (Hfall : forall pr y, k pr t1 = Some y ->
            exists t, t1 = js "://" ++ t /\ run R (Some 47%N) t = Some y).
  { intros pr y Hy. apply run_lit_inv in Hy. destruct Hy as (t & -> & Hy).
    exists t. split; [reflexivity|exact Hy]. }
  destruct t1 as [|c t1].
  - cbn [once] in H. destruct (k (lastOr prev (js "http")) []) eqn:E;
      simpl in H; [|discriminate].
    destruct (Hfall _ _ E) as (t & Ht & _). discriminate.
  - cbn [once] in H. destruct (oneOf "s" c) eqn:Hc.
    + assert (c = 115%N) as ->.
      { unfold oneOf in Hc. simpl in Hc. rewrite orb_false_r in Hc.
        now apply N.eqb_eq in Hc. }
      destruct (k (Some 115%N) t1) eqn:E.
      * simpl in H. inversion H; subst.
        unfold k in E. apply run_lit_inv in E. destruct E as (t & -> & E).
        exists (js "https"), t. split; [now right|]. split; [reflexivity|exact E].
      * simpl in H.
        destruct (k (lastOr prev (js "http")) (115%N :: t1)) eqn:E2;
          simpl in H; [|discriminate].
        destruct (Hfall _ _ E2) as (t & Ht & _). discriminate.
    + destruct (k (lastOr prev (js "http")) (c :: t1)) eqn:E;
        simpl in H; [|discriminate].
      inversion H; subst. destruct (Hfall _ _ E) as (t & Ht & Hr).
      exists (js "http"), t. split; [now left|]. rewrite Ht.
      split; [reflexivity|exact Hr].
Qed.

Lemma urlTail_unfold :
  urlTail = litS (js "/test/read.cgi/")
            ++ Atom (noneOf "/") Plus true
               :: (litS (js "/") ++ [Atom isDigit Plus true]).
Proof. reflexivity. Qed.

Lemma urlAfterServer_unfold :
  urlAfterServer = litS (js ".") ++ Atom (noneOf "/") Plus true :: urlTail.
Proof. reflexivity. Qed.

Lemma urlHost_unfold : urlHost = Atom (noneOf "/") Plus true :: urlAfterServer.
Proof. reflexivity. Qed.

Lemma urlRe_unfold :
  urlRe = lit "http" ++ cls (oneOf "s") Opt ++ lit "://" ++ urlHost.
Proof. reflexivity. Qed.

Lemma urlTail_complete (prev : option char) (board tid after : jsstring) :
  board <> [] -> forallb notSlash board = true ->
  tid <> [] -> forallb isDigit tid = true ->
  run urlTail prev (js "/test/read.cgi/" ++ board ++ js "/" ++ tid ++ after)
  <> None.
Proof.
  intros Hb Hbs Ht Htd. rewrite urlTail_unfold, run_lit_app.
  apply run_plus_complete; [assumption|exact Hbs|].
  rewrite run_lit_app.
  apply run_plus_complete; [assumption|exact Htd|discriminate].
Qed.

Lemma urlAfterServer_complete (prev : option char)
  (domain board tid after : jsstring) :
  domain <> [] -> forallb notSlash domain = true ->
  board <> [] -> forallb notSlash board = true ->
  tid <> [] -> forallb isDigit tid = true ->
  run urlAfterServer prev
      (js "." ++ domain ++ js "/test/read.cgi/" ++ board ++ js "/" ++ tid
       ++ after) <> None.
Proof.
  intros Hd Hds Hb Hbs Ht Htd. rewrite urlAfterServer_unfold, run_lit_app.
  apply run_plus_complete; [assumption|exact Hds|].
  now apply urlTail_complete.
Qed.

Lemma urlHost_complete (prev : option char)
  (server domain board tid after : jsstring) :
  server <> [] -> forallb notSlash server = true ->
  domain <> [] -> forallb notSlash domain = true ->
  board <> [] -> forallb notSlash board = true ->
  tid <> [] -> forallb isDigit tid = true ->
  run urlHost prev
      (server ++ js "." ++ domain ++ js "/test/read.cgi/" ++ board ++ js "/"
       ++ tid ++ after) <> None.
Proof.
  intros Hs Hss Hd Hds Hb Hbs Ht Htd. rewrite urlHost_unfold.
  apply run_plus_complete; [assumption|exact Hss|].
  now apply urlAfterServer_complete.
Qed.

Lemma urlTail_sound (prev : option char) (s : jsstring) (x : result) :
  run urlTail prev s = Some x ->
  exists board tid,
    s = js "/test/read.cgi/" ++ board ++ js "/" ++ tid ++ rest x /\
    caps x = [board; tid] /\
    board <> [] /\ forallb notSlash board = true /\
    tid <> [] /\ forallb isDigit tid = true /\
    startsWithDigit (rest x) = false.
Proof.
  rewrite urlTail_unfold. intros H.
  apply run_lit_inv in H. destruct H as (t1 & -> & H).
  apply run_plus_sound in H.
  destruct H as (board & t2 & x2 & Hb & Hbs & -> & H & -> & _).
  apply run_lit_inv in H. destruct H as (t3 & -> & H).
  apply run_plus_sound in H.
  destruct H as (tid & t4 & x4 & Ht & Htd & -> & H & -> & Hmax).
  simpl in H. inversion H; subst x4. clear H.
  exists board, tid. simpl. repeat split; auto.
  destruct t4 as [|c t4]; [reflexivity|]. simpl.
  destruct (isDigit c) eqn:Hc; [|reflexivity].
  specialize (Hmax [c] t4 eq_refl). simpl in Hmax. rewrite Hc in Hmax.
  discriminate Hmax; [discriminate|reflexivity].
Qed.

Lemma urlAfterServer_sound (prev : option char) (s : jsstring) (x : result) :
  run urlAfterServer prev s = Some x ->
  exists domain board tid,
    s = js "." ++ domain ++ js "/test/read.cgi/" ++ board ++ js "/" ++ tid
        ++ rest x /\
    caps x = [domain; board; tid] /\
    domain <> [] /\ forallb notSlash domain = true /\
    board <> [] /\ forallb notSlash board = true /\
    tid <> [] /\ forallb isDigit tid = true /\
    startsWithDigit (rest x) = false.
Proof.
  rewrite urlAfterServer_unfold. intros H.
  apply run_lit_inv in H. destruct H as (t1 & -> & H).
  apply run_plus_sound in H.
  destruct H as (domain & t2 & x2 & Hd & Hds & -> & H & -> & _).
  apply urlTail_sound in H.
  destruct H as (board & tid & -> & Hc & Hb & Hbs & Ht & Htd & Hr).
  exists domain, board, tid. simpl. rewrite Hc. repeat split; auto.
Qed.

Lemma notSlash_dot_app (a : jsstring) :
  forallb notSlash a = true -> forallb notSlash (js "." ++ a) = true.
Proof. intros H. simpl. exact H. Qed.

(** The first group is greedy: what is left for the second group holds
    no dot with text after it. *)
Lemma urlHost_sound (prev : option char) (s : jsstring) (x : result) :
  run urlHost prev s = Some x ->
  exists server domain board tid,
    s = server ++ js "." ++ domain ++ js "/test/read.cgi/" ++ board ++ js "/"
        ++ tid ++ rest x /\
    caps x = [server; domain; board; tid] /\
    server <> [] /\ forallb notSlash server = true /\
    domain <> [] /\ forallb notSlash domain = true /\
    board <> [] /\ forallb notSlash board = true /\
    tid <> [] /\ forallb isDigit tid = true /\
    startsWithDigit (rest x) = false /\
    (forall a b, domain = a ++ js "." ++ b -> b = []).
Proof.
  rewrite urlHost_unfold. intros H.
  apply run_plus_sound in H.
  destruct H as (server & t1 & x1 & Hs & Hss & -> & H & -> & Hmax).
  apply urlAfterServer_sound in H.
  destruct H as (domain & board & tid & -> & Hc & Hd & Hds & Hb & Hbs & Ht
                 & Htd & Hr).
  exists server, domain, board, tid. simpl. rewrite Hc.
  repeat split; auto.
  intros a b ->. destruct b as [|c b]; [reflexivity|]. exfalso.
  rewrite !forallb_app in Hds. apply andb_prop in Hds. destruct Hds as [Ha Hds].
  apply andb_prop in Hds. destruct Hds as [_ Hcb].
  refine (urlAfterServer_complete
            (lastOr None (server ++ js "." ++ a)) (c :: b) board tid (rest x1)
            _ Hcb Hb Hbs Ht Htd _); [discriminate|].
  apply (Hmax (js "." ++ a)).
  - rewrite <- !app_assoc. reflexivity.
  - discriminate.
  - now apply notSlash_dot_app.
Qed.

Lemma cut_at_slash (a b x y : jsstring) :
  forallb notSlash a = true -> forallb notSlash b = true ->
  a ++ 47%N :: x = b ++ 47%N :: y -> a = b /\ x = y.
Proof.
  revert b. induction a as [|c a IH]; intros [|d b] Ha Hb E; simpl in *.
  - inversion E. now split.
  - inversion E; subst. discriminate.
  - inversion E; subst. discriminate.
  - apply andb_prop in Ha, Hb. destruct Ha as [_ Ha]. destruct Hb as [_ Hb].
    inversion E; subst. destruct (IH _ Ha Hb H1) as [-> ->]. now split.
Qed.

Lemma cut_digits (a b x y : jsstring) :
  forallb isDigit a = true -> forallb isDigit b = true ->
  startsWithDigit x = false -> startsWithDigit y = false ->
  a ++ x = b ++ y -> a = b /\ x = y.
Proof.
  revert b. induction a as [|c a IH]; intros [|d b] Ha Hb Hx Hy E; simpl in *.
  - now split.
  - subst x. simpl in Hx. apply andb_prop in Hb. destruct Hb. congruence.
  - subst y. simpl in Hy. apply andb_prop in Ha. destruct Ha. congruence.
  - apply andb_prop in Ha, Hb. destruct Ha as [_ Ha]. destruct Hb as [_ Hb].
    inversion E; subst. destruct (IH _ Ha Hb Hx Hy H1) as [-> ->]. now split.
Qed.

Lemma app_group (a d b c : jsstring) :
  a ++ d ++ b ++ c = (a ++ d ++ b) ++ c.
Proof. now rewrite <- !app_assoc. Qed.

Lemma host_notSlash (server domain : jsstring) :
  forallb notSlash server = true -> forallb notSlash domain = true ->
  forallb notSlash (server ++ js "." ++ domain) = true.
Proof.
  intros Hs Hd. rewrite forallb_app, Hs. now apply notSlash_dot_app.
Qed.

Lemma run_urlRe_scheme (prev : option char) (scheme t : jsstring) :
  scheme = js "http" \/ scheme = js "https" ->
  run urlRe prev (scheme ++ js "://" ++ t) = run urlHost (Some 47%N) t.
Proof.
  rewrite urlRe_unfold.
  intros [-> | ->]; [apply run_scheme_http | apply run_scheme_https].
Qed.

(** What the pattern captures on a thread URL: the four groups, the
    first two cut at the last dot of the host. *)
Lemma thread_url_match (url scheme server domain board tid after : jsstring) :
  isThreadUrl url scheme server domain board tid after ->
  exists g1 g2,
    g1 ++ js "." ++ g2 = server ++ js "." ++ domain /\
    (forall a b, g2 = a ++ js "." ++ b -> b = []) /\
    matchRe urlRe url = Some ([], Res [g1; g2; board; tid] after).
Proof.
  intros (-> & Hsch & Hs & Hss & Hd & Hds & Hb & Hbs & Ht & Htd & Haf).
  set (t := server ++ js "." ++ domain ++ js "/test/read.cgi/" ++ board
            ++ js "/" ++ tid ++ after).
  pose proof (run_urlRe_scheme None scheme t Hsch) as Hrun.
  destruct (run urlHost (Some 47%N) t) as [x|] eqn:E.
  2:{ exfalso. revert E. now apply urlHost_complete. }
  destruct (urlHost_sound _ _ _ E) as
    (g1 & g2 & g3 & g4 & Et & Hc & H1 & H1s & H2 & H2s & H3 & H3s & H4 & H4d
     & Hr & Hdot).
  unfold t in Et. rewrite js_slash_test in Et. cbn [app] in Et.
  rewrite (app_group server), (app_group g1) in Et.
  destruct (cut_at_slash _ _ _ _ (host_notSlash _ _ Hss Hds)
              (host_notSlash _ _ H1s H2s) Et) as [Eh Et2].
  apply app_inv_head in Et2.
  change (js "/" ++ ?z) with (47%N :: z) in Et2.
  destruct (cut_at_slash _ _ _ _ Hbs H3s Et2) as [<- Et3].
  destruct (cut_digits _ _ _ _ Htd H4d Haf Hr Et3) as [<- Erest].
  exists g1, g2. split; [now symmetry|]. split; [exact Hdot|].
  unfold matchRe. rewrite (search_here _ _ _ _ Hrun).
  destruct x as [cs rs]. simpl in Hc, Erest. now subst cs rs.
Qed.

Lemma flagship_has_inner_dot (domain : jsstring) :
  (forall a b, domain = a ++ js "." ++ b -> b = []) ->
  (str_eqb domain (js "5ch.net") || str_eqb domain (js "bbspink.com"))%bool
  = false.
Proof.
  intros H. apply orb_false_iff. split; apply str_eqb_neq; intros ->.
  - discriminate (H (js "5ch") (js "net") eq_refl).
  - discriminate (H (js "bbspink") (js "com") eq_refl).
Qed.

(** A match of the pattern anywhere in the text is a thread URL. *)
Lemma match_is_thread_url (url before : jsstring) (m : result) :
  matchRe urlRe url = Some (before, m) -> hasThreadUrl url.
Proof.
  intros H. apply search_sound in H. destruct H as (t & -> & H).
  rewrite urlRe_unfold in H. apply run_scheme_inv in H.
  destruct H as (scheme & t1 & Hsch & -> & H).
  apply urlHost_sound in H.
  destruct H as (server & domain & board & tid & -> & _ & Hs & Hss & Hd & Hds
                 & Hb & Hbs & Ht & Htd & Hr & _).
  exists before, scheme, server, domain, board, tid, (rest m).
  split; [reflexivity|]. unfold isThreadUrl. repeat split; auto.
Qed.

(** A thread URL anywhere in the text is found by the pattern. *)
Lemma thread_url_is_matched (url : jsstring) :
  hasThreadUrl url -> matchRe urlRe url <> None.
Proof.
  intros (before & scheme & server & domain & board & tid & after & -> & Hu).
  destruct Hu as (_ & Hsch & Hs & Hss & Hd & Hds & Hb & Hbs & Ht & Htd & _).
  unfold matchRe. apply search_complete.
  rewrite (run_urlRe_scheme _ _ _ Hsch). now apply urlHost_complete.
Qed.

(** * The serializer *)

Lemma split_sep_trailing (body : jsstring) :
  exists f fs, split sep (body ++ sep) = (f :: fs) ++ [[]].
Proof.
  induction body as [|c|c d s IH1 IH2] using pair_ind.
  - exists [], []. reflexivity.
  - exists [c], []. rewrite sep_chars. cbn [app]. rewrite split_sep_two.
    change (60 =? 62)%N with false. rewrite andb_false_r.
    rewrite split_sep_two. reflexivity.
  - cbn [app]. rewrite split_sep_two.
    destruct ((c =? 60) && (d =? 62))%N%bool.
    + destruct IH1 as (f & fs & ->). exists [], (f :: fs). reflexivity.
    + change (d :: s ++ sep) with ((d :: s) ++ sep).
      destruct IH2 as (f & fs & ->). exists (c :: f), fs. reflexivity.
Qed.

Lemma datLine_ends_with_sep (p : Post) :
  exists body, datLine p = body ++ sep.
Proof.
  unfold datLine.
  exists (name p ++ sep ++ mail p ++ sep ++ date p
          ++ (if isEmpty (id p) then [] else js " ID:" ++ id p)
          ++ sep ++ message p).
  now rewrite <- !app_assoc.
Qed.

Lemma join_lf_lines (lines : list jsstring) :
  lines <> [] ->
  join lf lines ++ lf = concat (map (fun l => l ++ lf) lines).
Proof.
  induction lines as [|l lines IH]; [congruence|]. intros _.
  destruct lines as [|l' lines].
  - simpl. now rewrite app_nil_r.
  - rewrite join_cons by discriminate.
    change (concat (map (fun l0 => l0 ++ lf) (l :: l' :: lines)))
      with ((l ++ lf) ++ concat (map (fun l0 => l0 ++ lf) (l' :: lines))).
    rewrite <- IH by discriminate. now rewrite <- !app_assoc.
Qed.

(** * The [ID:] token of the date field *)

Lemma idRe_unfold : idRe = idReC true.
Proof. reflexivity. Qed.

Lemma idStripRe_unfold : idStripRe = idReC false.
Proof. reflexivity. Qed.

Lemma greedy_take (p : char -> bool) (k : cont) (w : jsstring) :
  forall prev x,
    forallb p w = true -> k (lastOr prev w) [] = Some x ->
    greedy p k prev w = Some (w, x).
Proof.
  induction w as [|c w IH]; intros prev x Hw Hk.
  - simpl in *. now rewrite Hk.
  - simpl in Hw. apply andb_prop in Hw. destruct Hw as [Hc Hw].
    cbn [greedy]. rewrite Hc. now rewrite (IH (Some c) x Hw Hk).
Qed.

Lemma run_idReC_none (cap : bool) (prev : option char) (s : jsstring) :
  startsId s = false -> run (idReC cap) prev s = None.
Proof.
  unfold startsId, idReC. intros H. rewrite run_litS.
  destruct (startsWith (js "ID:") s); [|reflexivity].
  cbn [andb] in H. change (length (js "ID:")) with 3.
  destruct (skipn 3 s) as [|x t]; [reflexivity|].
  cbn [run atom once]. now rewrite H.
Qed.

Lemma run_idReC_token (cap : bool) (prev : option char) (tok : jsstring) :
  tok <> [] -> forallb notSpace tok = true ->
  run (idReC cap) prev (js "ID:" ++ tok) = Some (keep cap tok (Res [] [])).
Proof.
  intros Hne Htok. unfold idReC. rewrite run_lit_app.
  destruct tok as [|c tok]; [congruence|].
  simpl in Htok. apply andb_prop in Htok. destruct Htok as [Hc Htok].
  change (run [Atom notSpace Plus cap] ?pv ?s)
    with (record cap (atom notSpace Plus (run []) pv s)).
  cbn [atom once]. rewrite Hc.
  rewrite (greedy_take notSpace (run []) tok (Some c) (Res [] [])
             Htok eq_refl).
  reflexivity.
Qed.

Lemma startsId_before_space (d t : jsstring) :
  startsId d = false -> startsId (d ++ 32%N :: t) = false.
Proof.
  unfold startsId.
  destruct d as [|a [|b [|c [|x d]]]]; cbn [app skipn startsWith js map
    list_ascii_of_string]; intros H.
  - reflexivity.
  - now rewrite !andb_false_r.
  - now rewrite !andb_false_r.
  - now rewrite andb_false_r.
  - exact H.
Qed.

Lemma hasIdToken_suffix (b d : jsstring) :
  hasIdToken (b ++ d) = false -> startsId d = false.
Proof.
  induction b as [|c b IH]; intros H.
  - destruct d; [reflexivity|].
    cbn [app hasIdToken] in H. now apply orb_false_elim in H.
  - cbn [app hasIdToken] in H. apply orb_false_elim in H. now apply IH.
Qed.

Lemma snoc_suffix (a b1 b2 : jsstring) (c : char) :
  a ++ [c] = b1 ++ b2 -> b2 <> [] ->
  exists d, b2 = d ++ [c] /\ a = b1 ++ d.
Proof.
  intros E Hne. destruct (exists_last Hne) as (d & e & ->).
  rewrite app_assoc in E. apply app_inj_tail in E. destruct E as [-> ->].
  now exists d.
Qed.

(** The leftmost token of [date ++ " ID:" ++ id] is the one that the
    serializer wrote. *)
Lemma search_id (cap : bool) (d tok : jsstring) :
  hasIdToken d = false -> tok <> [] -> forallb notSpace tok = true ->
  matchRe (idReC cap) (d ++ js " ID:" ++ tok)
  = Some (d ++ js " ", keep cap tok (Res [] [])).
Proof.
  intros Hd Hne Htok. unfold matchRe.
  change (d ++ js " ID:" ++ tok) with (d ++ js " " ++ (js "ID:" ++ tok)).
  rewrite app_assoc, search_skip.
  - rewrite (search_here _ _ _ _ (run_idReC_token cap _ tok Hne Htok)).
    now rewrite app_nil_r.
  - intros b1 b2 E Hb2. apply run_idReC_none.
    destruct (snoc_suffix _ _ _ _ E Hb2) as (d2 & -> & ->).
    rewrite <- app_assoc. apply startsId_before_space.
    now apply (hasIdToken_suffix b1).
Qed.

Lemma search_id_none (cap : bool) (d : jsstring) :
  hasIdToken d = false -> matchRe (idReC cap) d = None.
Proof.
  intros Hd. unfold matchRe. apply search_none.
  intros b1 b2 ->. apply run_idReC_none. now apply (hasIdToken_suffix b1).
Qed.

Lemma trim_trailing_space (d : jsstring) :
  trimmed d = true -> trim (d ++ js " ") = d.
Proof.
  intros H. destruct d as [|c d]; [reflexivity|].
  pose proof (trim_trimmed _ H) as E.
  unfold trimmed in H. apply andb_prop in H. destruct H as [Hc _].
  apply negb_true_iff in Hc.
  unfold trim, trimStart, trimEnd in E.
  rewrite (dropWhile_fixed _ _ _ Hc) in E.
  unfold trim, trimStart. cbn [app].
  rewrite (dropWhile_fixed _ _ _ Hc).
  unfold trimEnd. change (c :: d ++ js " ") with ((c :: d) ++ [32%N]).
  rewrite rev_app_distr.
  change (rev [32%N] ++ rev (c :: d)) with (32%N :: rev (c :: d)).
  change (dropWhile isSpace (32%N :: rev (c :: d)))
    with (dropWhile isSpace (rev (c :: d))).
  exact E.
Qed.

Lemma idOf_dateAndId (p : Post) :
  hasIdToken (date p) = false -> forallb notSpace (id p) = true ->
  idOf (dateAndIdOf p) = id p.
Proof.
  intros Hd Hi. unfold idOf, dateAndIdOf. rewrite idRe_unfold.
  destruct (id p) as [|c i] eqn:E.
  - cbn [isEmpty]. rewrite app_nil_r. now rewrite search_id_none.
  - cbn [isEmpty]. rewrite search_id by (assumption || discriminate).
    reflexivity.
Qed.

Lemma dateOf_dateAndId (p : Post) :
  hasIdToken (date p) = false -> forallb notSpace (id p) = true ->
  trimmed (date p) = true ->
  dateOf (dateAndIdOf p) = date p.
Proof.
  intros Hd Hi Ht. unfold dateOf, replaceFirst, dateAndIdOf.
  rewrite idStripRe_unfold.
  destruct (id p) as [|c i] eqn:E.
  - cbn [isEmpty]. rewrite app_nil_r. rewrite search_id_none by assumption.
    now apply trim_trimmed.
  - cbn [isEmpty]. rewrite search_id by (assumption || discriminate).
    cbn [keep rest app]. rewrite app_nil_r. now apply trim_trailing_space.
Qed.

(** * Writing a post and reading it back *)

Lemma cleanField_inv (f : jsstring) :
  cleanField f = true -> contains sep f = false /\ contains lf f = false.
Proof.
  unfold cleanField. intros H. apply andb_prop in H. destruct H as [H1 H2].
  now apply negb_true_iff in H1, H2.
Qed.

Lemma contains_sep_app (a b : jsstring) :
  contains sep a = false -> contains sep b = false ->
  match b with c :: _ => (c =? 62)%N = false | [] => True end ->
  contains sep (a ++ b) = false.
Proof.
  intros Ha Hb Hhd.
  induction a as [|c|c d s IH1 IH2] using pair_ind.
  - exact Hb.
  - destruct b as [|e b]; [apply contains_sep_one|].
    cbn [app]. rewrite contains_sep_two, Hhd, andb_false_r. exact Hb.
  - rewrite contains_sep_two in Ha. apply orb_false_elim in Ha.
    destruct Ha as [Hcd Ha]. cbn [app]. rewrite contains_sep_two, Hcd.
    apply (IH2 Ha).
Qed.

Lemma contains_sep_id_suffix (i : jsstring) :
  contains sep i = false -> contains sep (js " ID:" ++ i) = false.
Proof.
  intros Hi. change (js " ID:" ++ i) with (32 :: 73 :: 68 :: 58 :: i)%N.
  rewrite !contains_sep_two. cbn [N.eqb Pos.eqb andb orb].
  destruct i as [|c i]; [apply contains_sep_one|].
  rewrite contains_sep_two. exact Hi.
Qed.

Lemma dateAndIdOf_clean (p : Post) :
  representable p -> contains sep (dateAndIdOf p) = false.
Proof.
  intros (_ & _ & _ & Hd & Hi & _). unfold dateAndIdOf.
  apply cleanField_inv in Hd, Hi. destruct Hd as [Hd _], Hi as [Hi _].
  destruct (id p) as [|c i] eqn:E; cbn [isEmpty].
  - now rewrite app_nil_r.
  - apply contains_sep_app; [assumption|now apply contains_sep_id_suffix|].
    reflexivity.
Qed.

Lemma datLine_fields (p : Post) :
  datLine p
  = name p ++ sep ++ mail p ++ sep ++ dateAndIdOf p ++ sep ++ message p
    ++ sep ++ [].
Proof.
  unfold datLine, dateAndIdOf. now rewrite <- !app_assoc, app_nil_r.
Qed.

Lemma datLine_split (p : Post) :
  representable p ->
  split sep (datLine p) = [name p; mail p; dateAndIdOf p; message p; []].
Proof.
  intros Hp. pose proof (dateAndIdOf_clean p Hp) as Hdi.
  destruct Hp as (_ & Hn & Hm & _ & _ & Hg & _).
  apply cleanField_inv in Hn, Hm, Hg.
  rewrite datLine_fields.
  rewrite !split_sep_field by tauto. reflexivity.
Qed.

Lemma datLine_lf_free (p : Post) :
  representable p -> contains lf (datLine p) = false.
Proof.
  intros (_ & Hn & Hm & Hd & Hi & Hg & _).
  apply cleanField_inv in Hn, Hm, Hd, Hi, Hg.
  unfold datLine. rewrite !contains_lf_app.
  destruct Hn as [_ ->], Hm as [_ ->], Hd as [_ ->], Hg as [_ ->].
  destruct (id p) as [|c i]; cbn [isEmpty]; [reflexivity|].
  rewrite contains_lf_app. destruct Hi as [_ ->]. reflexivity.
Qed.

Lemma datLine_kept (p : Post) :
  representable p -> keptLine (datLine p) = true.
Proof.
  intros Hp. unfold keptLine. rewrite (datLine_split p Hp).
  rewrite (nonBlank_of_char (datLine p) 60%N); [reflexivity| |reflexivity].
  unfold datLine. apply in_or_app. right. now left.
Qed.

Lemma postOfParts_datLine (p : Post) :
  representable p -> postOfParts (split sep (datLine p)) = p.
Proof.
  intros Hp. rewrite (datLine_split p Hp).
  destruct Hp as (Hne & _ & _ & _ & _ & _ & Ht & Hd & Hi).
  unfold postOfParts. cbn [nth].
  rewrite (idOf_dateAndId p Hd Hi), (dateOf_dateAndId p Hd Hi Ht).
  unfold orElse. destruct p as [n m d i g]. cbn [name] in *.
  destruct n; [congruence|reflexivity].
Qed.

Lemma split_lf_lines (lines : list jsstring) :
  Forall (fun l => contains lf l = false) lines ->
  split lf (concat (map (fun l => l ++ lf) lines)) = lines ++ [[]].
Proof.
  induction 1 as [|l lines Hl _ IH]; [reflexivity|].
  cbn [map concat app]. rewrite <- app_assoc, (split_lf_line _ _ Hl).
  now rewrite IH.
Qed.

(** The dat text of representable posts parses back to the posts. *)
Lemma parse_serialize (posts : list Post) :
  Forall representable posts -> parseDatFile (serializeDat posts) = posts.
Proof.
  intros H. destruct posts as [|p0 posts0] eqn:E; [reflexivity|].
  rewrite <- E in *. assert (Hne : map datLine posts <> [])
    by (rewrite E; discriminate).
  unfold serializeDat.
  replace (0 <? length (map datLine posts)) with true
    by (rewrite E; reflexivity).
  rewrite (join_lf_lines _ Hne), parseDatFile_map, split_lf_lines.
  - clear E Hne. induction H as [|p posts Hp _ IH]; [reflexivity|].
    cbn [map app filter]. rewrite (datLine_kept p Hp). cbn [map].
    now rewrite (postOfParts_datLine p Hp), IH.
  - apply Forall_forall. intros l Hl. apply in_map_iff in Hl.
    destruct Hl as (p & <- & Hp). apply datLine_lf_free.
    now apply (proj1 (Forall_forall _ _) H).
Qed.

(** * The parser of the earlier page *)

Lemma fold_pushLine_plain (lines : list jsstring) (acc : list Post) :
  fold_left PlainText.pushLine lines acc =
  acc ++ map (fun line => PlainText.postOfParts (split sep line))
             (filter (fun line => 4 <=? length (split sep line)) lines).
Proof.
  revert acc. induction lines as [|line lines IH]; intros acc;
    cbn [fold_left filter map].
  - now rewrite app_nil_r.
  - rewrite IH. unfold PlainText.pushLine.
    destruct (4 <=? length (split sep line)); cbn [map]; [|reflexivity].
    now rewrite <- app_assoc.
Qed.

(** It yields the posts of [parseDatFile] with the breaks of each
    message turned into line feeds. *)
Lemma plain_parseDatFile_map (content : jsstring) :
  PlainText.parseDatFile content = map brToLf (parseDatFile content).
Proof.
  unfold PlainText.parseDatFile. rewrite fold_pushLine_plain, filter_filter.
  rewrite parseDatFile_map, map_map. reflexivity.
Qed.

Lemma run_brRe_none (prev : option char) (s : jsstring) :
  startsWith (js "<br>") s = false -> run brRe prev s = None.
Proof.
  intros H. unfold brRe, lit. rewrite <- (app_nil_r (litS (js "<br>"))).
  now rewrite run_litS, H.
Qed.

Lemma replaceAll_br_id (f : list jsstring -> jsstring) (s : jsstring) :
  contains (js "<br>") s = false -> replaceAll brRe f s = s.
Proof.
  unfold replaceAll, replaceAllSt. generalize (@None N) as prev.
  induction s as [|c s IH]; intros prev H.
  - reflexivity.
  - rewrite contains_cons in H. apply orb_false_elim in H.
    destruct H as [H1 H2]. cbn [replaceAll_go].
    rewrite (run_brRe_none prev _ H1).
    specialize (IH (Some c) H2).
    destruct (replaceAll_go brRe (fun (_ : unit) c0 => (tt, f c0)) 0 tt
                (Some c) s) as [st tl].
    simpl in IH. simpl. now rewrite IH.
Qed.

Lemma map_brToLf_id (posts : list Post) :
  Forall (fun p => contains (js "<br>") (message p) = false) posts ->
  map brToLf posts = posts.
Proof.
  induction 1 as [|p posts Hp _ IH]; [reflexivity|].
  cbn [map]. rewrite IH. f_equal.
  unfold brToLf. rewrite (replaceAll_br_id _ _ Hp). now destruct p.
Qed.

(** * The properties of the specification *)

(** ** URL derivation *)

Lemma eggUrl_archived :
  convertToDatUrl eggUrl true
  = Some (js "https://egg.5ch.net/news/kako/1234/12345/1234567890.dat").
Proof. vm_compute. reflexivity. Qed.

Lemma eggUrl_shape (scheme : jsstring) :
  scheme = js "http" \/ scheme = js "https" ->
  isThreadUrl (scheme ++ js "://egg.5ch.net/test/read.cgi/news/1234567890/")
    scheme (js "egg") (js "5ch.net") (js "news") (js "1234567890") (js "/").
Proof.
  intros H. unfold isThreadUrl. repeat split; try discriminate; auto.
Qed.

(** C2 (the code departs from the claim): on the archived thread URL
    [https://egg.5ch.net/test/read.cgi/news/1234567890/], whose domain
    is the flagship [5ch.net], [convertToDatUrl] answers with the
    [kako] layout and not with [/oyster/1234/1234567890.dat]: the
    greedy first group has taken [egg.5ch] and left [net] as domain. *)
Theorem archived_flagship_gets_kako :
  convertToDatUrl eggUrl true
  = Some (js "https://egg.5ch.net/news/kako/1234/12345/1234567890.dat")
  /\ isThreadUrl eggUrl (js "https") (js "egg") (js "5ch.net") (js "news")
       (js "1234567890") (js "/")
  /\ convertToDatUrl eggUrl true
     <> Some (js "https://egg.5ch.net/news/oyster/1234/1234567890.dat").
Proof.
  split; [exact eggUrl_archived|]. split.
  - apply (eggUrl_shape (js "https")). now right.
  - rewrite eggUrl_archived. discriminate.
Qed.

(** X1: in archived mode every thread URL, whatever its domain, is sent to
    the [kako] layout: the [oyster] branch is never taken. *)
Theorem archived_always_kako
  (url scheme server domain board tid after : jsstring) :
  isThreadUrl url scheme server domain board tid after ->
  5 <= length tid ->
  convertToDatUrl url true
  = Some (js "https://" ++ server ++ js "." ++ domain ++ js "/" ++ board
          ++ js "/kako/" ++ firstn 4 tid ++ js "/" ++ firstn 5 tid ++ js "/"
          ++ tid ++ js ".dat").
Proof.
  intros Hu Hlen.
  destruct (thread_url_match _ _ _ _ _ _ _ Hu) as (g1 & g2 & Eh & Hdot & Hm).
  unfold convertToDatUrl. rewrite Hm. cbn [group Nat.sub nth caps].
  apply Nat.ltb_ge in Hlen. rewrite Hlen.
  rewrite (flagship_has_inner_dot _ Hdot).
  unfold substring. cbn [Nat.sub skipn].
  rewrite (app_assoc g1), <- (app_assoc g1 (js ".")).
  rewrite (app_group g1 (js ".") g2), Eh.
  now rewrite <- !app_assoc.
Qed.

Lemma archived_always_kako_witness :
  convertToDatUrl (js "http://a.b.c/test/read.cgi/d/123456x") true
  = Some (js "https://a.b.c/d/kako/1234/12345/123456.dat").
Proof.
  apply (archived_always_kako (js "http://a.b.c/test/read.cgi/d/123456x")
           (js "http") (js "a") (js "b.c") (js "d") (js "123456") (js "x")).
  - unfold isThreadUrl. repeat split; try discriminate; auto.
  - simpl. lia.
Defined.

(** C3, as amended: on a thread URL whose thread id has five digits or
    more, live mode answers
    [https://{server}.{domain}/{board}/dat/{threadId}.dat]: server,
    domain and board are those of the input, the scheme is [https]
    whether the input had [http] or [https]. *)
Theorem live_dat_url
  (url scheme server domain board tid after : jsstring) :
  isThreadUrl url scheme server domain board tid after ->
  5 <= length tid ->
  convertToDatUrl url false
  = Some (js "https://" ++ server ++ js "." ++ domain ++ js "/" ++ board
          ++ js "/dat/" ++ tid ++ js ".dat").
Proof.
  intros Hu Hlen.
  destruct (thread_url_match _ _ _ _ _ _ _ Hu) as (g1 & g2 & Eh & Hdot & Hm).
  unfold convertToDatUrl. rewrite Hm. cbn [group Nat.sub nth caps].
  apply Nat.ltb_ge in Hlen. rewrite Hlen.
  rewrite (app_group g1 (js ".") g2), Eh.
  now rewrite <- !app_assoc.
Qed.

Lemma live_dat_url_witness :
  convertToDatUrl eggUrlHttp false
  = Some (js "https://egg.5ch.net/news/dat/1234567890.dat").
Proof.
  apply (live_dat_url eggUrlHttp
           (js "http") (js "egg") (js "5ch.net") (js "news")
           (js "1234567890") (js "/")).
  - apply (eggUrl_shape (js "http")). now left.
  - simpl. lia.
Defined.

Lemma eggUrlHttp_live :
  convertToDatUrl eggUrlHttp false
  = Some (js "https://egg.5ch.net/news/dat/1234567890.dat").
Proof. vm_compute. reflexivity. Qed.

(** C3 as stated fails: an [http] thread URL does not keep its scheme. *)
Lemma live_dat_url_scheme_not_kept :
  ~ (forall url scheme server domain board tid after,
       isThreadUrl url scheme server domain board tid after ->
       5 <= length tid ->
       convertToDatUrl url false
       = Some (scheme ++ js "://" ++ server ++ js "." ++ domain ++ js "/"
               ++ board ++ js "/dat/" ++ tid ++ js ".dat")).
Proof.
  intros H.
  specialize (H eggUrlHttp (js "http") (js "egg") (js "5ch.net") (js "news")
                (js "1234567890") (js "/")
                (eggUrl_shape (js "http") (or_introl eq_refl))
                ltac:(simpl; lia)).
  rewrite eggUrlHttp_live in H. discriminate H.
Qed.

(** C4: [convertToDatUrl] is a total function into [option]; with either
    flag it answers [None] when no part of the text has the shape of a
    thread URL, when the fourth group of the match has fewer than five
    code units, and so when the text is a thread URL whose thread id
    has fewer than five digits. *)
Theorem convertToDatUrl_null (url : jsstring) (isDatOchi : bool) :
  (~ hasThreadUrl url -> convertToDatUrl url isDatOchi = None)
  /\ (forall before m,
        matchRe urlRe url = Some (before, m) -> length (group 4 m) < 5 ->
        convertToDatUrl url isDatOchi = None)
  /\ (forall scheme server domain board tid after,
        isThreadUrl url scheme server domain board tid after ->
        length tid < 5 -> convertToDatUrl url isDatOchi = None).
Proof.
  split; [|split].
  - intros Hno. unfold convertToDatUrl.
    destruct (matchRe urlRe url) as [[before m]|] eqn:E; [|reflexivity].
    exfalso. apply Hno. eapply match_is_thread_url. exact E.
  - intros before m Hm Hlen. unfold convertToDatUrl. rewrite Hm.
    apply Nat.ltb_lt in Hlen. now rewrite Hlen.
  - intros scheme server domain board tid after Hu Hlen.
    destruct (thread_url_match _ _ _ _ _ _ _ Hu) as (g1 & g2 & _ & _ & Hm).
    unfold convertToDatUrl. rewrite Hm. cbn [group Nat.sub nth caps].
    apply Nat.ltb_lt in Hlen. now rewrite Hlen.
Qed.

Lemma convertToDatUrl_null_witness :
  convertToDatUrl (js "https://egg.5ch.net/news/1234567890/") true = None
  /\ convertToDatUrl (js "https://egg.5ch.net/test/read.cgi/news/1234/") false
     = None.
Proof.
  split.
  - apply (proj1 (convertToDatUrl_null _ true)).
    intros H. apply thread_url_is_matched in H. apply H.
    vm_compute. reflexivity.
  - apply (proj2 (proj2 (convertToDatUrl_null _ false))
             (js "https") (js "egg") (js "5ch.net") (js "news") (js "1234")
             (js "/")).
    + unfold isThreadUrl. repeat split; try discriminate; auto.
    + simpl. lia.
Defined.

(** ** Tag normalization *)

(** C5: on [a<br>b<span>c</span><a href=\x22x\x22>d</a>] the
    normalization gives [a<br>bc<a href=\x22x\x22>d</a>]: the break is
    kept, the span tags go and their text stays, the anchor comes back
    with its href and its text. *)
Theorem stripTagsKeepBrA_example :
  stripTagsKeepBrA normalizeInput = normalizeOutput.
Proof. vm_compute. reflexivity. Qed.

(** ** The serializer *)

(** C6: each post becomes the line
    [name<>mail<>date{ ID:id}<>message<>], the [ID:] part present when
    the id is not empty; the text is these lines, each one followed by
    a line feed, which is the lines joined by line feeds with one more
    line feed at the end when there is a post, and the empty text when
    there is none; splitting a line on the separator leaves the empty
    string as last field. *)
Theorem serializeDat_format (posts : list Post) :
  serializeDat posts
  = concat
      (map (fun p =>
              name p ++ js "<>" ++ mail p ++ js "<>" ++ date p
              ++ (if isEmpty (id p) then [] else js " ID:" ++ id p)
              ++ js "<>" ++ message p ++ js "<>" ++ lf) posts)
  /\ serializeDat posts
     = join lf
         (map (fun p =>
                 name p ++ js "<>" ++ mail p ++ js "<>" ++ date p
                 ++ (if isEmpty (id p) then [] else js " ID:" ++ id p)
                 ++ js "<>" ++ message p ++ js "<>") posts)
       ++ (match posts with [] => [] | _ :: _ => lf end)
  /\ Forall (fun p => exists fields,
               split (js "<>")
                 (name p ++ js "<>" ++ mail p ++ js "<>" ++ date p
                  ++ (if isEmpty (id p) then [] else js " ID:" ++ id p)
                  ++ js "<>" ++ message p ++ js "<>")
               = fields ++ [[]]) posts
  /\ (serializeDat posts = [] <-> posts = []).
Proof.
  split; [|split; [|split]].
  - destruct posts as [|p posts]; [reflexivity|].
    unfold serializeDat.
    replace (0 <? length (map datLine (p :: posts))) with true
      by reflexivity.
    rewrite join_lf_lines by discriminate.
    rewrite map_map. f_equal. apply map_ext. intros q.
    unfold datLine, sep. now rewrite <- !app_assoc.
  - unfold serializeDat. now destruct posts.
  - apply Forall_forall. intros p _.
    destruct (datLine_ends_with_sep p) as [body E].
    destruct (split_sep_trailing body) as (f & fs & E').
    exists (f :: fs). unfold datLine in E. fold sep. rewrite E. exact E'.
  - split; [|now intros ->].
    destruct posts as [|p posts]; [reflexivity|]. unfold serializeDat.
    cbn [map length Nat.ltb Nat.leb]. intros H.
    apply app_eq_nil in H. destruct H as [_ H]. discriminate.
Qed.

(** ** The dat parser *)

(** C7: the posts are those of the lines, in their order, that hold a
    code unit other than white space and split into four fields or
    more, one post per such line: every line of four fields or more
    gives its post, and there are as many posts as such lines; the
    empty text, a text of blank lines, and a text whose every line is
    white space or has fewer than four fields give no post. *)
Theorem parseDatFile_kept_lines (content : jsstring) :
  parseDatFile content
  = map (fun line => postOfParts (split sep line))
        (filter (fun line =>
                   (negb (forallb isSpace line)
                    && (4 <=? length (split sep line)))%bool)
                (split lf content))
  /\ length (parseDatFile content)
     = length (filter (fun line => 4 <=? length (split sep line))
                      (split lf content))
  /\ (forall line, In line (split lf content) ->
        4 <= length (split sep line) ->
        In (postOfParts (split sep line)) (parseDatFile content))
  /\ parseDatFile [] = []
  /\ parseDatFile (js "   " ++ lf ++ lf) = []
  /\ ((forall line, In line (split lf content) ->
         forallb isSpace line = true \/ length (split sep line) < 4) ->
      parseDatFile content = []).
Proof.
  assert (K : forall line, 4 <= length (split sep line) ->
                keptLine line = true).
  { intros line H. unfold keptLine. apply Nat.leb_le in H. rewrite H.
    apply Nat.leb_le in H.
    destruct (split sep line) as [|f0 [|f1 more]] eqn:Es;
      [simpl in H; lia|simpl in H; lia|].
    now rewrite (nonBlank_of_char line 60%N (In_sep_of_fields _ _ _ _ Es)
                   eq_refl). }
  assert (E : filter keptLine (split lf content)
              = filter (fun line => 4 <=? length (split sep line))
                       (split lf content)).
  { apply filter_ext_in. intros line _. unfold keptLine.
    destruct (4 <=? length (split sep line)) eqn:H;
      [|now rewrite andb_false_r].
    apply Nat.leb_le in H. apply K in H. unfold keptLine in H.
    apply andb_prop in H. destruct H as [-> _]. reflexivity. }
  split; [|split; [|split; [|split; [reflexivity|split]]]].
  - rewrite parseDatFile_map. f_equal. apply filter_ext. intros line.
    unfold keptLine. now rewrite nonBlank_spec.
  - now rewrite parseDatFile_map, length_map, E.
  - intros line Hin H. rewrite parseDatFile_map.
    apply (in_map (fun l => postOfParts (split sep l))).
    apply filter_In. split; [exact Hin|now apply K].
  - vm_compute. reflexivity.
  - intros H. clear E. rewrite parseDatFile_map.
    replace (filter keptLine (split lf content)) with (@nil (list N));
      [reflexivity|].
    symmetry.
    induction (split lf content) as [|line lines IH]; [reflexivity|].
    cbn [filter]. unfold keptLine at 1.
    destruct (H line (or_introl eq_refl)) as [Hb | Hl].
    + rewrite (nonBlank_all_space _ Hb). cbn [andb].
      apply IH. intros l Hl. apply H. now right.
    + apply Nat.leb_gt in Hl. rewrite Hl, andb_false_r.
      apply IH. intros l Hl'. apply H. now right.
Qed.

Lemma parseDatFile_kept_lines_witness :
  parseDatFile threeFieldLines = []
  /\ In (mkPost (js "name") (js "sage") (js "2020/01/01") (js "abc")
                (js "hello"))
        (parseDatFile (threeFieldLines ++ lf ++ titledLine)).
Proof.
  split.
  - apply (proj2 (proj2 (proj2 (proj2 (proj2
             (parseDatFile_kept_lines threeFieldLines)))))).
    intros line Hin. vm_compute in Hin.
    destruct Hin as [<-|[<-|[<-|[]]]].
    + right. vm_compute. lia.
    + left. reflexivity.
    + right. vm_compute. lia.
  - apply (proj1 (proj2 (proj2
             (parseDatFile_kept_lines (threeFieldLines ++ lf ++ titledLine))))
             titledLine).
    + vm_compute. tauto.
    + vm_compute. lia.
Defined.

(** C8: on a line of four fields or more the name of the post is the
    placeholder when the first field is the empty string, and the first
    field itself otherwise, white space included. *)
Theorem parseDat_name_placeholder (line f0 f1 f2 f3 : jsstring)
  (more : list jsstring) :
  contains lf line = false ->
  split sep line = f0 :: f1 :: f2 :: f3 :: more ->
  exists p,
    parseDatFile line = [p]
    /\ (f0 = [] -> name p = nanashi)
    /\ (f0 <> [] -> name p = f0).
Proof.
  intros Hlf Hs. eexists.
  split; [apply (parseDatFile_one_line _ _ _ _ _ _ Hlf Hs)|].
  unfold postOfParts. cbn [name nth]. unfold orElse.
  split; [now intros ->|]. now destruct f0.
Qed.

Lemma parseDat_name_placeholder_witness :
  exists p, parseDatFile blankNameLine = [p]
            /\ (js "  " = [] -> name p = nanashi)
            /\ (js "  " <> [] -> name p = js "  ").
Proof.
  apply (parseDat_name_placeholder blankNameLine (js "  ") (js "sage")
           (js "2020/01/01") (js "hello") []); reflexivity.
Defined.

(** C10: the fields after the fourth play no part: the post of a line
    is the post of the line cut down to its first four fields, and it
    is built from those four fields alone. *)
Theorem parseDat_ignores_extra_fields (line f0 f1 f2 f3 : jsstring)
  (more : list jsstring) :
  contains lf line = false ->
  split sep line = f0 :: f1 :: f2 :: f3 :: more ->
  parseDatFile line = parseDatFile (join sep [f0; f1; f2; f3])
  /\ parseDatFile line
     = [mkPost (orElse f0 nanashi) f1 (dateOf f2) (idOf f2) f3].
Proof.
  intros Hlf Hs.
  pose proof (split_sep_clean line) as Hc. rewrite Hs in Hc.
  inversion Hc as [|? ? C0 Hc1]; subst.
  inversion Hc1 as [|? ? C1 Hc2]; subst.
  inversion Hc2 as [|? ? C2 Hc3]; subst.
  inversion Hc3 as [|? ? C3 _]; subst.
  assert (Hcut : split sep (join sep [f0; f1; f2; f3]) = [f0; f1; f2; f3]).
  { cbn [join]. rewrite !split_sep_field by assumption.
    now rewrite split_sep_last. }
  assert (Hlf' : contains lf (join sep [f0; f1; f2; f3]) = false).
  { pose proof (join_split_sep line) as E. rewrite Hs in E.
    rewrite <- E in Hlf. cbn [join]. destruct more as [|f4 more].
    - exact Hlf.
    - rewrite !join_cons in Hlf by discriminate.
      rewrite !contains_lf_app in Hlf. rewrite !contains_lf_app.
      repeat (apply orb_false_elim in Hlf; destruct Hlf as [? Hlf]).
      repeat (apply orb_false_intro; [assumption|]). assumption. }
  rewrite (parseDatFile_one_line _ _ _ _ _ _ Hlf Hs).
  rewrite (parseDatFile_one_line _ _ _ _ _ _ Hlf' Hcut).
  split; reflexivity.
Qed.

Lemma parseDat_ignores_extra_fields_witness :
  parseDatFile titledLine = parseDatFile (js "name<>sage<>2020/01/01 ID:abc<>hello")
  /\ parseDatFile titledLine
     = [mkPost (js "name") (js "sage") (js "2020/01/01") (js "abc")
               (js "hello")].
Proof.
  refine (parseDat_ignores_extra_fields titledLine (js "name") (js "sage")
            (js "2020/01/01 ID:abc") (js "hello") [js "thread title"] _ _);
    reflexivity.
Defined.

(** ** Names *)

Lemma anonymousPostHtml_posts :
  parseHtmlPosts noReferences anonymousPostHtml
  = [mkPost [] [] [] [] (js "hello")].
Proof. vm_compute. reflexivity. Qed.

Example sampleHtml_posts :
  parseHtmlPosts noReferences sampleHtml
  = [ mkPost (js "nanashi") (js "sage") (js "2020/01/01 00:00:00") (js "abcd")
             (js "hello <a href=" ++ [dq] ++ js "../x" ++ [dq]
              ++ js ">x</a><br>world");
      mkPost (js "foo") [] [] [] (js "second") ].
Proof. vm_compute. reflexivity. Qed.

(** C9 as stated fails on the HTML parser: a post block without a user
    name gives a post whose name is the empty string. *)
Lemma parseHtmlPosts_empty_name :
  ~ Forall (fun p => name p <> [])
           (parseHtmlPosts noReferences anonymousPostHtml).
Proof.
  rewrite anonymousPostHtml_posts. intros H.
  inversion H as [|? ? Hn _]; subst. now apply Hn.
Qed.

(** C9, as amended: every post of the dat parser has a name that is not
    empty; the HTML parser has no placeholder: for a block that holds
    no user-name span the name of its post is the empty string, the
    decoding of the host leaving the empty text empty. *)
Theorem parseDatFile_names_nonempty :
  (forall content, Forall (fun p => name p <> []) (parseDatFile content))
  /\ (forall unescapeHtml block,
        unescapeHtml [] = [] ->
        matchRe usernameRe block = None ->
        name (postOfBlock unescapeHtml block) = []).
Proof.
  split.
  - intros content. rewrite parseDatFile_map. apply Forall_forall.
    intros p Hp. apply in_map_iff in Hp. destruct Hp as (line & <- & _).
    unfold postOfParts. cbn [name]. now apply orElse_nonempty.
  - intros u block Hu Hm. unfold postOfBlock, extractNameAndMail.
    rewrite Hm, Hu. reflexivity.
Qed.

Lemma parseDatFile_names_nonempty_witness :
  Forall (fun p => name p <> []) (parseDatFile blankNameLine)
  /\ name (postOfBlock noReferences anonymousPostHtml) = [].
Proof.
  split.
  - apply (proj1 parseDatFile_names_nonempty).
  - apply (proj2 parseDatFile_names_nonempty); reflexivity.
Defined.

(** ** The round trip *)

(** C1 as stated fails: the post whose fields are all empty holds no
    separator, and comes back with the placeholder as its name. *)
Lemma roundtrip_fails_on_empty_name :
  ~ (forall posts, posts <> [] -> Forall sepFree posts ->
       parseDatFile (serializeDat posts) = posts).
Proof.
  intros H. specialize (H [emptyPost]).
  assert (E : parseDatFile (serializeDat [emptyPost])
              = [mkPost nanashi [] [] [] []]) by reflexivity.
  rewrite E in H.
  discriminate H; [discriminate|].
  repeat constructor.
Qed.

(** The other conditions of the amended round trip are needed as well:
    a line feed cuts the record in two, the date is trimmed, an id ends
    at the first white space, and an [ID:] token inside the date is
    taken for the id. *)
Example roundtrip_line_feed :
  parseDatFile (serializeDat [mkPost (js "a") [] [] [] (js "x" ++ lf ++ js "y")])
  = [mkPost (js "a") [] [] [] (js "x")].
Proof. vm_compute. reflexivity. Qed.

Example roundtrip_date_untrimmed :
  parseDatFile (serializeDat [mkPost (js "a") [] (js " d") [] (js "x")])
  = [mkPost (js "a") [] (js "d") [] (js "x")].
Proof. vm_compute. reflexivity. Qed.

Example roundtrip_id_with_space :
  parseDatFile (serializeDat [mkPost (js "a") [] (js "d") (js "i j") (js "x")])
  = [mkPost (js "a") [] (js "d  j") (js "i") (js "x")].
Proof. vm_compute. reflexivity. Qed.

Example roundtrip_date_with_token :
  parseDatFile (serializeDat [mkPost (js "a") [] (js "ID:k") [] (js "x")])
  = [mkPost (js "a") [] [] (js "k") (js "x")].
Proof. vm_compute. reflexivity. Qed.

(** C1, as amended: a sequence of posts, not empty, is parsed back from
    its dat text as it was by [parseDatFile] of the page that holds the
    serializer, when in every post the name is not empty, no field
    value holds the separator or a line feed, the date neither starts
    nor ends with white space and holds no [ID:] followed by a code
    unit other than white space, and the id holds no white space; by
    [parseDatFile] of the earlier page, which turns every [<br>] into a
    line feed, when on top of this no message holds a [<br>]. *)
Theorem parse_serialize_roundtrip (posts : list Post) :
  posts <> [] -> Forall representable posts ->
  parseDatFile (serializeDat posts) = posts
  /\ (Forall (fun p => contains (js "<br>") (message p) = false) posts ->
      PlainText.parseDatFile (serializeDat posts) = posts).
Proof.
  intros _ Hr. split; [now apply parse_serialize|].
  intros Hb. rewrite plain_parseDatFile_map, (parse_serialize posts Hr).
  now apply map_brToLf_id.
Qed.

Lemma parse_serialize_roundtrip_witness :
  parseDatFile (serializeDat samplePosts) = samplePosts
  /\ PlainText.parseDatFile (serializeDat plainPosts) = plainPosts.
Proof.
  split.
  - apply (proj1 (parse_serialize_roundtrip samplePosts
                    ltac:(discriminate)
                    ltac:(repeat constructor; try discriminate))).
  - apply (proj2 (parse_serialize_roundtrip plainPosts
                    ltac:(discriminate)
                    ltac:(repeat constructor; try discriminate))).
    repeat constructor.
Defined.

(** The earlier page's parser does not give [samplePosts] back: the
    break of the first message has become a line feed. *)
Example plain_roundtrip_break :
  PlainText.parseDatFile (serializeDat samplePosts)
  = [ mkPost (js "name") (js "sage") (js "2020/01/01(Wed) 12:00:00.00")
             (js "abc") (js "hello" ++ lf ++ js "world");
      mkPost nanashi [] (js "2020") [] (js "x") ].
Proof. vm_compute. reflexivity. Qed.

(** X19: the parser of the earlier page reads the same text back when, on
    top of this, no message holds a [<br>]. *)
Lemma plain_parse_serialize (posts : list Post) :
  Forall representable posts ->
  Forall (fun p => contains (js "<br>") (message p) = false) posts ->
  PlainText.parseDatFile (serializeDat posts) = posts.
Proof.
  intros Hr Hb. rewrite plain_parseDatFile_map, (parse_serialize posts Hr).
  induction Hb as [|p posts Hp _ IH]; [reflexivity|].
  inversion Hr; subst. cbn [map]. rewrite IH by assumption. f_equal.
  unfold brToLf. rewrite (replaceAll_br_id _ _ Hp). now destruct p.
Qed.

Example plain_parse_break :
  PlainText.parseDatFile (js "a<>b<>c<>x<br>y")
  = [mkPost (js "a") (js "b") (js "c") [] (js "x" ++ lf ++ js "y")].
Proof. vm_compute. reflexivity. Qed.

(** * Further properties of the code *)

(** ** URL derivation, both modes *)

(** The kako and dat layouts, as the templates of [convertToDatUrl]
    write them. *)
Lemma convertToDatUrl_on_thread_url
  (url scheme server domain board tid after : jsstring) (isDatOchi : bool) :
  isThreadUrl url scheme server domain board tid after ->
  convertToDatUrl url isDatOchi
  = if length tid <? 5 then None
    else if isDatOchi
         then Some (js "https://" ++ server ++ js "." ++ domain ++ js "/"
                    ++ board ++ js "/kako/" ++ firstn 4 tid ++ js "/"
                    ++ firstn 5 tid ++ js "/" ++ tid ++ js ".dat")
         else Some (js "https://" ++ server ++ js "." ++ domain ++ js "/"
                    ++ board ++ js "/dat/" ++ tid ++ js ".dat").
Proof.
  intros Hu.
  destruct (thread_url_match _ _ _ _ _ _ _ Hu) as (g1 & g2 & Eh & Hdot & Hm).
  unfold convertToDatUrl. rewrite Hm. cbn [group Nat.sub nth caps].
  destruct (length tid <? 5); [reflexivity|].
  rewrite (flagship_has_inner_dot _ Hdot).
  unfold substring. cbn [Nat.sub skipn].
  rewrite !(app_group g1 (js ".") g2), Eh.
  destruct isDatOchi; now rewrite <- !app_assoc.
Qed.

Lemma convertToDatUrl_not_empty (url : jsstring) (isDatOchi : bool)
  (out : jsstring) :
  convertToDatUrl url isDatOchi = Some out -> isEmpty out = false.
Proof.
  unfold convertToDatUrl.
  destruct (matchRe urlRe url) as [[before m]|]; [|discriminate].
  destruct (length (group 4 m) <? 5); [discriminate|].
  destruct isDatOchi;
    [destruct (str_eqb (group 2 m) (js "5ch.net")
               || str_eqb (group 2 m) (js "bbspink.com"))%bool|];
    intros H; inversion H; reflexivity.
Qed.

(** X2: a result only comes from a thread URL inside the text, and is built
    from its parts: the host and the board as they stand, the thread id
    of five digits or more, under [https]; in archived mode the layout
    is the kako one. *)
Theorem convertToDatUrl_some_inv (url : jsstring) (isDatOchi : bool)
  (out : jsstring) :
  convertToDatUrl url isDatOchi = Some out ->
  exists before scheme server domain board tid after,
    url = before ++ scheme ++ js "://" ++ server ++ js "." ++ domain
          ++ js "/test/read.cgi/" ++ board ++ js "/" ++ tid ++ after
    /\ (scheme = js "http" \/ scheme = js "https")
    /\ forallb notSlash server = true /\ forallb notSlash domain = true
    /\ forallb notSlash board = true /\ forallb isDigit tid = true
    /\ 5 <= length tid
    /\ out = js "https://" ++ server ++ js "." ++ domain ++ js "/" ++ board
             ++ (if isDatOchi
                 then js "/kako/" ++ firstn 4 tid ++ js "/" ++ firstn 5 tid
                      ++ js "/"
                 else js "/dat/")
             ++ tid ++ js ".dat".
Proof.
  unfold convertToDatUrl.
  destruct (matchRe urlRe url) as [[before m]|] eqn:E; [|discriminate].
  apply search_sound in E. destruct E as (t & -> & E).
  rewrite urlRe_unfold in E. apply run_scheme_inv in E.
  destruct E as (scheme & t1 & Hsch & -> & E).
  apply urlHost_sound in E.
  destruct E as (server & domain & board & tid & -> & Hc & _ & Hss & _ & Hds
                 & _ & Hbs & _ & Htd & _ & Hdot).
  unfold group. rewrite Hc. cbn [Nat.sub nth].
  destruct (length tid <? 5) eqn:Hlen; [discriminate|].
  apply Nat.ltb_ge in Hlen. rewrite (flagship_has_inner_dot _ Hdot).
  intros H.
  exists before, scheme, server, domain, board, tid, (rest m).
  repeat split; auto.
  destruct isDatOchi; inversion H; unfold substring; cbn [Nat.sub skipn];
    now rewrite <- ?app_assoc.
Qed.

Lemma convertToDatUrl_some_inv_witness :
  exists before scheme server domain board tid after,
    js "see http://a.b.c/test/read.cgi/d/123456/l50"
    = before ++ scheme ++ js "://" ++ server ++ js "." ++ domain
      ++ js "/test/read.cgi/" ++ board ++ js "/" ++ tid ++ after
    /\ (scheme = js "http" \/ scheme = js "https")
    /\ forallb notSlash server = true /\ forallb notSlash domain = true
    /\ forallb notSlash board = true /\ forallb isDigit tid = true
    /\ 5 <= length tid
    /\ js "https://a.b.c/d/kako/1234/12345/123456.dat"
       = js "https://" ++ server ++ js "." ++ domain ++ js "/" ++ board
         ++ (if true
             then js "/kako/" ++ firstn 4 tid ++ js "/" ++ firstn 5 tid
                  ++ js "/"
             else js "/dat/")
         ++ tid ++ js ".dat".
Proof.
  apply (convertToDatUrl_some_inv
           (js "see http://a.b.c/test/read.cgi/d/123456/l50") true
           (js "https://a.b.c/d/kako/1234/12345/123456.dat")).
  vm_compute. reflexivity.
Defined.

(** X3: what follows the thread id, such as [/l50], does not change the
    result. *)
Theorem convertToDatUrl_ignores_tail
  (url scheme server domain board tid path : jsstring) (isDatOchi : bool) :
  isThreadUrl url scheme server domain board tid [] ->
  convertToDatUrl (url ++ js "/" ++ path) isDatOchi
  = convertToDatUrl url isDatOchi.
Proof.
  intros Hu.
  rewrite (convertToDatUrl_on_thread_url _ _ _ _ _ _ _ isDatOchi Hu).
  apply (convertToDatUrl_on_thread_url _ scheme server domain board tid
           (js "/" ++ path)).
  destruct Hu as (-> & Hrest). split; [|exact Hrest].
  rewrite !app_nil_r. now rewrite <- !app_assoc.
Qed.

Lemma convertToDatUrl_ignores_tail_witness :
  convertToDatUrl (js "https://egg.5ch.net/test/read.cgi/news/1234567890"
                   ++ js "/" ++ js "l50") false
  = convertToDatUrl (js "https://egg.5ch.net/test/read.cgi/news/1234567890")
      false.
Proof.
  apply (convertToDatUrl_ignores_tail _ (js "https") (js "egg") (js "5ch.net")
           (js "news") (js "1234567890")).
  unfold isThreadUrl. repeat split; try discriminate; auto.
Defined.

(** ** The convert button *)

(** X4: after [handleConvert] either the dat URL is shown and there is no
    error, or the error is shown and there is no dat URL; the dat URL is
    the one derived from the text of the input box, and nothing else of
    the state changes. *)
Theorem handleConvert_outcome (st : Page.State) :
  let st' := handleConvert st in
  ((convertToDatUrl (Page.threadUrl st) (Page.isDatOchi st)
    = Some (Page.datUrl st')
    /\ Page.datUrl st' <> [] /\ Page.error st' = [])
   \/ (convertToDatUrl (Page.threadUrl st) (Page.isDatOchi st) = None
       /\ Page.datUrl st' = [] /\ Page.error st' = invalidUrlMessage))
  /\ Page.threadUrl st' = Page.threadUrl st
  /\ Page.posts st' = Page.posts st
  /\ Page.isDatOchi st' = Page.isDatOchi st
  /\ Page.htmlUrl st' = Page.htmlUrl st
  /\ Page.isConverting st' = Page.isConverting st.
Proof.
  unfold handleConvert.
  destruct (convertToDatUrl (Page.threadUrl st) (Page.isDatOchi st))
    as [c|] eqn:E.
  - rewrite (convertToDatUrl_not_empty _ _ _ E). cbn.
    split; [|now repeat split]. left. split; [reflexivity|].
    split; [|reflexivity]. pose proof (convertToDatUrl_not_empty _ _ _ E).
    now destruct c.
  - cbn. split; [|now repeat split]. right. now repeat split.
Qed.

(** ** The name of the downloaded file *)

Lemma split_char_cons (c0 c : char) (s : jsstring) :
  split [c0] (c :: s) =
  if (c =? c0)%N then [] :: split [c0] s else consHead c (split [c0] s).
Proof.
  rewrite split_cons. cbn [startsWith length Nat.sub].
  now rewrite andb_true_r, (N.eqb_sym c0 c).
Qed.

Lemma consHead_app (c : char) (l1 l2 : list jsstring) :
  l1 <> [] -> consHead c (l1 ++ l2) = consHead c l1 ++ l2.
Proof. destruct l1; [congruence|reflexivity]. Qed.

(** Splitting on one code unit cuts at every occurrence. *)
Lemma split_char_app (c0 : char) (a b : jsstring) :
  split [c0] (a ++ c0 :: b) = split [c0] a ++ split [c0] b.
Proof.
  induction a as [|c a IH].
  - cbn [app]. now rewrite split_char_cons, N.eqb_refl.
  - cbn [app]. rewrite !split_char_cons, IH.
    destruct (c =? c0)%N; [reflexivity|].
    apply consHead_app, split_not_nil.
Qed.

Lemma notSlash_neq (c : char) : notSlash c = true -> (c =? 47)%N = false.
Proof.
  unfold notSlash, noneOf, oneOf. simpl. rewrite orb_false_r.
  apply negb_true_iff.
Qed.

Lemma split_slash_none (b : jsstring) :
  forallb notSlash b = true -> split [47%N] b = [b].
Proof.
  induction b as [|c b IH]; [reflexivity|]. cbn [forallb]. intros H.
  apply andb_prop in H. destruct H as [Hc Hb].
  now rewrite split_char_cons, (notSlash_neq _ Hc), (IH Hb).
Qed.

Lemma datFileName_of_path (dir file : jsstring) :
  file <> [] -> forallb notSlash file = true ->
  datFileName (dir ++ js "/" ++ file) = file.
Proof.
  intros Hne Hf. unfold datFileName.
  change (js "/" ++ file) with (47%N :: file).
  change (js "/") with [47%N].
  rewrite split_char_app, (split_slash_none file Hf), last_last.
  unfold orElse. now destruct file.
Qed.

Lemma digits_notSlash (tid : jsstring) :
  forallb isDigit tid = true -> forallb notSlash tid = true.
Proof.
  induction tid as [|c tid IH]; [reflexivity|]. cbn [forallb]. intros H.
  apply andb_prop in H. destruct H as [Hc Ht]. rewrite (IH Ht), andb_true_r.
  unfold isDigit, inRange in Hc. apply andb_prop in Hc. destruct Hc as [Hc _].
  apply N.leb_le in Hc. unfold notSlash, noneOf, oneOf. simpl.
  rewrite orb_false_r. apply negb_true_iff, N.eqb_neq. lia.
Qed.

(** X5: the dat URL of a thread is downloaded under the name
    [{threadId}.dat], in both modes. *)
Theorem datFileName_of_converted
  (url scheme server domain board tid after out : jsstring)
  (isDatOchi : bool) :
  isThreadUrl url scheme server domain board tid after ->
  convertToDatUrl url isDatOchi = Some out ->
  datFileName out = tid ++ js ".dat".
Proof.
  intros Hu. rewrite (convertToDatUrl_on_thread_url _ _ _ _ _ _ _ _ Hu).
  destruct Hu as (_ & _ & _ & _ & _ & _ & _ & _ & Hne & Htd & _).
  assert (Hfile : forallb notSlash (tid ++ js ".dat") = true)
    by (rewrite forallb_app, (digits_notSlash _ Htd); reflexivity).
  assert (Hne' : tid ++ js ".dat" <> []) by (now destruct tid).
  destruct (length tid <? 5); [discriminate|].
  destruct isDatOchi; intros H; inversion H; clear H.
  - rewrite <- (datFileName_of_path
                  (js "https://" ++ server ++ js "." ++ domain ++ js "/"
                   ++ board ++ js "/kako/" ++ firstn 4 tid ++ js "/"
                   ++ firstn 5 tid) _ Hne' Hfile) at 2.
    now rewrite <- !app_assoc.
  - change (js "/dat/") with (js "/dat" ++ js "/").
    rewrite <- (datFileName_of_path
                  (js "https://" ++ server ++ js "." ++ domain ++ js "/"
                   ++ board ++ js "/dat") _ Hne' Hfile) at 2.
    now rewrite <- !app_assoc.
Qed.

Lemma datFileName_of_converted_witness :
  datFileName (js "https://egg.5ch.net/news/kako/1234/12345/1234567890.dat")
  = js "1234567890" ++ js ".dat".
Proof.
  apply (datFileName_of_converted eggUrl (js "https") (js "egg")
           (js "5ch.net") (js "news") (js "1234567890") (js "/") _ true).
  - unfold isThreadUrl. repeat split; try discriminate; auto.
  - vm_compute. reflexivity.
Defined.

(** ** What the dat parser keeps *)

Lemma dropWhile_head (p : char -> bool) (s : jsstring) (d : char)
  (t : jsstring) :
  dropWhile p s = d :: t -> p d = false.
Proof.
  induction s as [|c s IH]; simpl; [discriminate|].
  destruct (p c) eqn:Hc; [exact IH|]. intros H. inversion H. now subst.
Qed.

Lemma dropWhile_suffix (p : char -> bool) (s : jsstring) :
  exists pre, s = pre ++ dropWhile p s.
Proof.
  induction s as [|c s [pre IH]]; [now exists []|]. simpl.
  destruct (p c); [|now exists []].
  exists (c :: pre). simpl. now rewrite <- IH.
Qed.

(** What [trim] returns neither starts nor ends with white space. *)
Lemma trimmed_trim (s : jsstring) : trimmed (trim s) = true.
Proof.
  unfold trim, trimEnd, trimStart.
  set (t := dropWhile isSpace s).
  destruct (dropWhile isSpace (rev t)) as [|e u] eqn:E; [reflexivity|].
  pose proof (dropWhile_head _ _ _ _ E) as He.
  destruct (dropWhile_suffix isSpace (rev t)) as [pre Hpre].
  rewrite E in Hpre. apply (f_equal (@rev N)) in Hpre.
  rewrite rev_involutive, rev_app_distr in Hpre.
  destruct (rev (e :: u)) as [|c w] eqn:R.
  { apply (f_equal (@length N)) in R. rewrite length_rev in R. discriminate. }
  assert (Hc : isSpace c = false).
  { unfold t in Hpre. cbn [app] in Hpre.
    exact (dropWhile_head _ _ _ _ Hpre). }
  unfold trimmed. rewrite Hc. cbn [rev] in R. rewrite <- R, last_last, He.
  reflexivity.
Qed.

Lemma idOf_notSpace (dateAndId : jsstring) :
  forallb notSpace (idOf dateAndId) = true.
Proof.
  unfold idOf.
  destruct (matchRe idRe dateAndId) as [[before m]|] eqn:E; [|reflexivity].
  apply search_sound in E. destruct E as (t & _ & E).
  rewrite idRe_unfold in E. unfold idReC in E. apply run_lit_inv in E.
  destruct E as (t1 & _ & E). apply run_plus_sound in E.
  destruct E as (w & t2 & x & _ & Hw & _ & _ & -> & _). exact Hw.
Qed.

(** X7: every post of the dat parser has a date without white space at
    either end and an id without any white space. *)
Theorem parseDatFile_date_and_id (content : jsstring) :
  Forall (fun p => trimmed (date p) = true
                   /\ forallb notSpace (id p) = true)
         (parseDatFile content).
Proof.
  rewrite parseDatFile_map. apply Forall_forall. intros p Hp.
  apply in_map_iff in Hp. destruct Hp as (line & <- & _).
  unfold postOfParts. cbn [date id]. split.
  - apply trimmed_trim.
  - apply idOf_notSpace.
Qed.

(** X6: the parser works line by line: the posts of two texts put together
    with a line feed are the posts of the first followed by the posts of
    the second. *)
Theorem parseDatFile_app (a b : jsstring) :
  parseDatFile (a ++ lf ++ b) = parseDatFile a ++ parseDatFile b.
Proof.
  rewrite !parseDatFile_map. unfold lf. cbn [app].
  change (split [10%N] ?x) with (split [10%N] x).
  rewrite split_char_app, filter_app, map_app. reflexivity.
Qed.

(** ** Where a pattern cannot match *)

Lemma run_cannot_start (r : regex) : forall prev c s,
  canStart r c = false -> run r prev (c :: s) = None.
Proof.
  induction r as [|i r IH]; intros prev c s H; [discriminate|].
  destruct i as [p q cap|].
  - cbn [canStart] in H. cbn [run].
    destruct q; unfold atom; cbn [once greedy lazy].
    + now rewrite H.
    + apply orb_false_elim in H. destruct H as [Hp Hr].
      now rewrite Hp, (IH prev c s Hr).
    + apply orb_false_elim in H. destruct H as [Hp Hr].
      now rewrite Hp, (IH prev c s Hr).
    + now rewrite H.
    + apply orb_false_elim in H. destruct H as [Hp Hr].
      now rewrite Hp, (IH prev c s Hr).
    + now rewrite H.
  - cbn [canStart] in H. cbn [run]. rewrite (IH prev c s H).
    now destruct (xorb _ _).
Qed.

Lemma run_not_nullable (r : regex) : forall prev,
  nullable r = false -> run r prev [] = None.
Proof.
  induction r as [|i r IH]; intros prev H; [discriminate|].
  destruct i as [p q cap|].
  - cbn [nullable] in H. cbn [run].
    destruct q; unfold atom; cbn [once greedy lazy]; try reflexivity;
      now rewrite (IH prev H).
  - cbn [nullable] in H. cbn [run]. rewrite (IH prev H).
    now destruct (xorb _ _).
Qed.

Section NoMatch.
Variable St : Type.
Variable r : regex.
Variable f : St -> list jsstring -> St * jsstring.

(** A text in which the pattern matches nowhere is left as it is, and
    the callback is not called. *)
Lemma replaceAll_go_nomatch (s : jsstring) : forall (st : St) prev,
  (forall pre t pv, s = pre ++ t -> run r pv t = None) ->
  replaceAll_go r f 0 st prev s = (st, s).
Proof.
  induction s as [|c s IH]; intros st prev H; cbn [replaceAll_go].
  - now rewrite (H [] [] prev eq_refl).
  - rewrite (H [] (c :: s) prev eq_refl).
    rewrite IH; [reflexivity|].
    intros pre t pv ->. apply (H (c :: pre) t pv eq_refl).
Qed.

Lemma replaceAllSt_cannot_start (s : jsstring) (st : St) :
  nullable r = false ->
  forallb (fun c => negb (canStart r c)) s = true ->
  replaceAllSt r f st s = (st, s).
Proof.
  intros Hn Hs. apply replaceAll_go_nomatch. intros pre t pv ->.
  rewrite forallb_app in Hs. apply andb_prop in Hs. destruct Hs as [_ Hs].
  destruct t as [|c t]; [now apply run_not_nullable|].
  cbn [forallb] in Hs. apply andb_prop in Hs. destruct Hs as [Hc _].
  apply negb_true_iff in Hc. now apply run_cannot_start.
Qed.
End NoMatch.
Arguments replaceAll_go_nomatch {St} r f s st prev _.
Arguments replaceAllSt_cannot_start {St} r f s st _ _.

Lemma replaceAll_cannot_start (r : regex) (f : list jsstring -> jsstring)
  (s : jsstring) :
  nullable r = false ->
  forallb (fun c => negb (canStart r c)) s = true ->
  replaceAll r f s = s.
Proof.
  intros Hn Hs. unfold replaceAll.
  now rewrite (replaceAllSt_cannot_start r _ s tt Hn Hs).
Qed.

Lemma matchAll_go_nomatch (r : regex) (s : jsstring) : forall pos prev,
  (forall pre t pv, s = pre ++ t -> run r pv t = None) ->
  matchAll_go r 0 pos prev s = [].
Proof.
  induction s as [|c s IH]; intros pos prev H; cbn [matchAll_go];
    [reflexivity|].
  rewrite (H [] (c :: s) prev eq_refl). apply IH.
  intros pre t pv ->. apply (H (c :: pre) t pv eq_refl).
Qed.

Lemma search_nomatch (r : regex) (s : jsstring) : forall prev,
  (forall pre t pv, s = pre ++ t -> run r pv t = None) ->
  search r prev s = None.
Proof.
  intros prev H. apply search_none. intros b1 b2 E. now apply (H b1).
Qed.

Lemma forallb_weaken (p q : char -> bool) (s : jsstring) :
  (forall c, p c = true -> q c = true) ->
  forallb p s = true -> forallb q s = true.
Proof.
  intros Hpq. induction s as [|c s IH]; [reflexivity|]. cbn [forallb].
  intros H. apply andb_prop in H. destruct H as [Hc Hs].
  now rewrite (Hpq c Hc), (IH Hs).
Qed.

(** ** Running text through the tag normalization *)

Lemma textChar_inv (c : char) :
  textChar c = true ->
  (60 =? c)%N = false /\ (13 =? c)%N = false /\ (0 =? c)%N = false
  /\ (isBlank c = true -> c = 32%N).
Proof.
  unfold textChar, isBlank. intros H.
  repeat (apply andb_prop in H; destruct H as [H ?]).
  repeat match goal with
         | X : negb _ = true |- _ => apply negb_true_iff in X
         end.
  rewrite !(N.eqb_sym _ c). repeat split; try assumption.
  intros Hb. repeat (apply orb_prop in Hb; destruct Hb as [Hb|Hb]);
    try congruence. now apply N.eqb_eq.
Qed.

Lemma textChar_no_tag_start (r : regex) (s : jsstring) :
  (forall c, canStart r c = (60 =? c)%N \/ canStart r c = (13 =? c)%N
             \/ canStart r c = (0 =? c)%N) ->
  forallb textChar s = true ->
  forallb (fun c => negb (canStart r c)) s = true.
Proof.
  intros Hr. apply forallb_weaken. intros c Hc.
  destruct (textChar_inv c Hc) as (H1 & H2 & H3 & _).
  destruct (Hr c) as [-> | [-> | ->]]; now rewrite ?H1, ?H2, ?H3.
Qed.

Lemma run_brSpaced_none (prev : option char) (s : jsstring) :
  forallb textChar s = true -> run brSpacedRe prev s = None.
Proof.
  intros Hs.
  change brSpacedRe
    with (Atom (oneOf " ") Opt false
          :: (litS (js "<br>") ++ [Atom (oneOf " ") Opt false])).
  assert (K : forall pv t, forallb textChar t = true ->
                run (litS (js "<br>") ++ [Atom (oneOf " ") Opt false]) pv t
                = None).
  { intros pv t Ht. rewrite run_litS. destruct t as [|c t]; [reflexivity|].
    cbn [forallb] in Ht. apply andb_prop in Ht. destruct Ht as [Hc _].
    destruct (textChar_inv c Hc) as (H1 & _).
    change (startsWith (js "<br>") (c :: t))
      with ((60 =? c)%N && startsWith (js "br>") t)%bool.
    now rewrite H1. }
  cbn [run]. unfold atom. rewrite (K prev s Hs).
  destruct s as [|c s]; [reflexivity|]. cbn [once].
  cbn [forallb] in Hs. apply andb_prop in Hs. destruct Hs as [_ Hs].
  rewrite (K (Some c) s Hs). now destruct (oneOf " " c).
Qed.

Lemma forallb_textChar_suffix (pre t : jsstring) :
  forallb textChar (pre ++ t) = true -> forallb textChar t = true.
Proof.
  rewrite forallb_app. intros H. apply andb_prop in H. tauto.
Qed.

(** A lone space is replaced by a space. *)
Lemma replaceAll_blanks_single (s : jsstring) :
  forallb textChar s = true -> singleSpaced s = true ->
  replaceAll blanksRe (fun _ => js " ") s = s.
Proof.
  unfold replaceAll, replaceAllSt. generalize (@None N) as prev.
  induction s as [|c s IH]; intros prev Ht Hs; [reflexivity|].
  cbn [forallb] in Ht. apply andb_prop in Ht. destruct Ht as [Hc Ht].
  cbn [singleSpaced] in Hs. apply andb_prop in Hs. destruct Hs as [Hcd Hs].
  specialize (IH (Some c) Ht Hs).
  cbn [replaceAll_go].
  change (run blanksRe prev (c :: s))
    with (record false (once isBlank (greedy isBlank (run [])) (c :: s))).
  cbn [once]. destruct (isBlank c) eqn:Hb.
  - destruct (textChar_inv c Hc) as (_ & _ & _ & H32).
    pose proof (H32 Hb) as Ec. subst c. cbn [andb] in Hcd.
    apply negb_true_iff in Hcd.
    assert (G : greedy isBlank (run []) (Some 32%N) s = Some ([], Res [] s)).
    { destruct s as [|d s]; [reflexivity|]. cbn [greedy]. now rewrite Hcd. }
    rewrite G. cbn [consumed record rest length].
    replace (S (length s) - length s) with 1 by lia.
    destruct (replaceAll_go blanksRe (fun (_ : unit) c0 => (tt, js " ")) 0 tt
                (Some 32%N) s) as [st tl].
    simpl in IH. subst tl. reflexivity.
  - cbn [record].
    destruct (replaceAll_go blanksRe (fun (_ : unit) c0 => (tt, js " ")) 0 tt
                (Some c) s) as [st tl].
    simpl in IH. subst tl. reflexivity.
Qed.

(** X11: running text (no [<], no carriage return, no NUL, no blank but the
    space, no two spaces in a row) comes out of the normalization
    trimmed and otherwise unchanged. *)
Theorem stripTagsKeepBrA_text (s : jsstring) :
  forallb textChar s = true -> singleSpaced s = true ->
  stripTagsKeepBrA s = trim s.
Proof.
  intros Ht Hs. unfold stripTagsKeepBrA.
  rewrite (replaceAll_cannot_start wbrRe _ s eq_refl)
    by (apply textChar_no_tag_start; [intros c; now left|exact Ht]).
  rewrite (replaceAll_cannot_start brAnyRe _ s eq_refl)
    by (apply textChar_no_tag_start; [intros c; now left|exact Ht]).
  rewrite (replaceAllSt_cannot_start anchorRe stashAnchor s [] eq_refl)
    by (apply textChar_no_tag_start; [intros c; now left|exact Ht]).
  rewrite (replaceAll_cannot_start brRe _ s eq_refl)
    by (apply textChar_no_tag_start; [intros c; now left|exact Ht]).
  rewrite (replaceAll_cannot_start tagRe _ s eq_refl)
    by (apply textChar_no_tag_start; [intros c; now left|exact Ht]).
  rewrite (replaceAll_cannot_start crRe _ s eq_refl)
    by (apply textChar_no_tag_start; [intros c; right; now left|exact Ht]).
  rewrite (replaceAll_cannot_start brMarkRe _ s eq_refl)
    by (apply textChar_no_tag_start; [intros c; right; now right|exact Ht]).
  rewrite (replaceAll_cannot_start anchorMarkRe _ s eq_refl)
    by (apply textChar_no_tag_start; [intros c; right; now right|exact Ht]).
  rewrite (replaceAll_blanks_single s Ht Hs).
  unfold replaceAll, replaceAllSt.
  rewrite (replaceAll_go_nomatch brSpacedRe _ s tt None); [reflexivity|].
  intros pre t pv ->. apply run_brSpaced_none.
  now apply (forallb_textChar_suffix pre).
Qed.

Lemma stripTagsKeepBrA_text_witness :
  stripTagsKeepBrA (js " plain text, one line ")
  = trim (js " plain text, one line ").
Proof.
  apply stripTagsKeepBrA_text; reflexivity.
Defined.

(** ** The HTML parser *)

Lemma fold_append_map (A B : Type) (g : A -> B) (l : list A) :
  forall acc, fold_left (fun acc b => acc ++ [g b]) l acc = acc ++ map g l.
Proof.
  induction l as [|x l IH]; intros acc; cbn [fold_left map].
  - now rewrite app_nil_r.
  - rewrite IH. now rewrite <- app_assoc.
Qed.

Lemma parseHtmlPosts_map (unescapeHtml : jsstring -> jsstring)
  (htmlText : jsstring) :
  parseHtmlPosts unescapeHtml htmlText
  = map (postOfBlock unescapeHtml)
        (blocksFrom htmlText (matchAllIdx divPostRegex htmlText)).
Proof. unfold parseHtmlPosts. now rewrite fold_append_map. Qed.

Lemma blocksFrom_length (htmlText : jsstring) (starts : list nat) :
  length (blocksFrom htmlText starts) = length starts.
Proof.
  induction starts as [|a starts IH]; [reflexivity|].
  cbn [blocksFrom length]. now rewrite IH.
Qed.

Lemma orElse_nil (a : jsstring) : orElse a [] = a.
Proof. now destruct a. Qed.

Lemma stripTagsKeepBrA_trimmed (bodyHtml : jsstring) :
  trimmed (stripTagsKeepBrA bodyHtml) = true.
Proof.
  unfold stripTagsKeepBrA.
  destruct (replaceAllSt anchorRe stashAnchor [] _) as [anchors body].
  apply trimmed_trim.
Qed.

(** X12: whatever the decoding of character references does, every post of
    the HTML parser has name, mail, date, id and message without white
    space at either end. *)
Theorem parseHtmlPosts_trimmed (unescapeHtml : jsstring -> jsstring)
  (htmlText : jsstring) :
  Forall (fun p => trimmed (name p) = true /\ trimmed (mail p) = true
                   /\ trimmed (date p) = true /\ trimmed (id p) = true
                   /\ trimmed (message p) = true)
         (parseHtmlPosts unescapeHtml htmlText).
Proof.
  rewrite parseHtmlPosts_map. apply Forall_forall. intros p Hp.
  apply in_map_iff in Hp. destruct Hp as (block & <- & _).
  unfold postOfBlock, extractNameAndMail.
  cbn [name mail date id message].
  repeat split.
  - rewrite orElse_nil. apply trimmed_trim.
  - destruct (matchRe mailRe block) as [[? ?]|];
      [apply trimmed_trim|reflexivity].
  - destruct (matchRe dateRe block) as [[? ?]|];
      [apply trimmed_trim|reflexivity].
  - destruct (matchRe uidRe block) as [[? ?]|];
      [apply trimmed_trim|reflexivity].
  - apply stripTagsKeepBrA_trimmed.
Qed.

Lemma serializeDat_nil (posts : list Post) :
  serializeDat posts = [] <-> posts = [].
Proof.
  split; [|now intros ->].
  destruct posts as [|p posts]; [reflexivity|]. unfold serializeDat.
  cbn [map length Nat.ltb Nat.leb]. intros H.
  apply app_eq_nil in H. destruct H as [_ H]. discriminate.
Qed.

(** X13: the dat text made from a page is empty, which [handleHtmlConvert]
    reports as a failure, exactly when the page holds no post marker;
    the number of posts is the number of markers. *)
Theorem convertHtmlToDat_empty (unescapeHtml : jsstring -> jsstring)
  (htmlText : jsstring) :
  (fst (convertHtmlToDat unescapeHtml htmlText) = []
   <-> matchAllIdx divPostRegex htmlText = [])
  /\ length (parseHtmlPosts unescapeHtml htmlText)
     = length (matchAllIdx divPostRegex htmlText).
Proof.
  assert (L : length (parseHtmlPosts unescapeHtml htmlText)
              = length (matchAllIdx divPostRegex htmlText))
    by (now rewrite parseHtmlPosts_map, length_map, blocksFrom_length).
  split; [|exact L].
  unfold convertHtmlToDat. cbn [fst]. rewrite serializeDat_nil.
  split; intros H.
  - rewrite H in L. now destruct (matchAllIdx divPostRegex htmlText).
  - rewrite H in L. now destruct (parseHtmlPosts unescapeHtml htmlText).
Qed.

Lemma no_tag_canStart (r : regex) (s : jsstring) :
  (forall c, canStart r c = (60 =? c)%N) ->
  forallb (fun c => negb (N.eqb c 60)) s = true ->
  forallb (fun c => negb (canStart r c)) s = true.
Proof.
  intros Hr. apply forallb_weaken. intros c Hc.
  now rewrite Hr, N.eqb_sym.
Qed.

Lemma no_match_of_cannot_start (r : regex) (s : jsstring) :
  nullable r = false ->
  forallb (fun c => negb (canStart r c)) s = true ->
  forall pre t pv, s = pre ++ t -> run r pv t = None.
Proof.
  intros Hn Hs pre t pv ->.
  rewrite forallb_app in Hs. apply andb_prop in Hs. destruct Hs as [_ Hs].
  destruct t as [|c t]; [now apply run_not_nullable|].
  cbn [forallb] in Hs. apply andb_prop in Hs. destruct Hs as [Hc _].
  apply negb_true_iff in Hc. now apply run_cannot_start.
Qed.

(** X14: a text without any [<] gives no post, no thread key and an empty
    dat text. *)
Theorem convertHtmlToDat_no_markup (unescapeHtml : jsstring -> jsstring)
  (htmlText : jsstring) :
  forallb (fun c => negb (N.eqb c 60)) htmlText = true ->
  parseHtmlPosts unescapeHtml htmlText = []
  /\ extractThreadKey htmlText = []
  /\ convertHtmlToDat unescapeHtml htmlText = ([], []).
Proof.
  intros H.
  assert (P : parseHtmlPosts unescapeHtml htmlText = []).
  { rewrite parseHtmlPosts_map. unfold matchAllIdx.
    rewrite matchAll_go_nomatch; [reflexivity|].
    apply no_match_of_cannot_start; [reflexivity|].
    now apply no_tag_canStart. }
  assert (K : extractThreadKey htmlText = []).
  { unfold extractThreadKey, matchRe. rewrite search_nomatch; [reflexivity|].
    apply no_match_of_cannot_start; [reflexivity|].
    now apply no_tag_canStart. }
  unfold convertHtmlToDat. now rewrite P, K.
Qed.

Lemma convertHtmlToDat_no_markup_witness :
  parseHtmlPosts noReferences (js "404 not found") = []
  /\ extractThreadKey (js "404 not found") = []
  /\ convertHtmlToDat noReferences (js "404 not found") = ([], []).
Proof.
  apply convertHtmlToDat_no_markup. reflexivity.
Defined.

(** ** The thread key *)

Lemma keyRe_unfold :
  keyRe = litS (js "/read.cgi/")
          ++ Atom (noneOf "/") Plus false
             :: (litS (js "/")
                 ++ Atom isDigit Plus true :: (litS (js "/") ++ [])).
Proof. reflexivity. Qed.

Lemma keyRe_group (prev : option char) (s : jsstring) (m : result) :
  run keyRe prev s = Some m ->
  group 1 m <> [] /\ forallb isDigit (group 1 m) = true.
Proof.
  rewrite keyRe_unfold. intros H.
  apply run_lit_inv in H. destruct H as (t1 & _ & H).
  apply run_plus_sound in H.
  destruct H as (w1 & t2 & x2 & _ & _ & _ & H & -> & _).
  apply run_lit_inv in H. destruct H as (t3 & _ & H).
  apply run_plus_sound in H.
  destruct H as (w & t4 & x4 & Hne & Hw & _ & H & -> & _).
  apply run_lit_inv in H. destruct H as (t5 & _ & H).
  cbn [keep]. unfold group. cbn [Nat.sub nth caps]. now split.
Qed.

(** X15: the thread key is a run of digits, empty when no canonical link
    with a thread path is found; so the converted page is saved as
    [thread.dat] or as [{digits}.dat]. *)
Theorem extractThreadKey_digits (htmlText : jsstring) :
  forallb isDigit (extractThreadKey htmlText) = true
  /\ htmlFileName (extractThreadKey htmlText)
     = (if isEmpty (extractThreadKey htmlText) then js "thread.dat"
        else extractThreadKey htmlText ++ js ".dat").
Proof.
  split.
  - unfold extractThreadKey.
    destruct (matchRe canonicalRe htmlText) as [[b1 m1]|]; [|reflexivity].
    destruct (matchRe keyRe (group 1 m1)) as [[b2 m2]|] eqn:E; [|reflexivity].
    apply search_sound in E. destruct E as (t & _ & E).
    now apply keyRe_group in E.
  - unfold htmlFileName, orElse.
    now destruct (extractThreadKey htmlText).
Qed.

(** ** [convertToDatUrl] of the earlier page *)

Lemma url5chRe_unfold :
  url5chRe = lit "http" ++ cls (oneOf "s") Opt ++ lit "://"
             ++ Atom (noneOf "/") Plus true
                :: (litS (js ".5ch.net") ++ urlTail).
Proof. reflexivity. Qed.

Lemma host5ch_sound (prev : option char) (s : jsstring) (x : result) :
  run (Atom (noneOf "/") Plus true :: (litS (js ".5ch.net") ++ urlTail))
      prev s = Some x ->
  exists server board tid,
    s = server ++ js ".5ch.net" ++ js "/test/read.cgi/" ++ board ++ js "/"
        ++ tid ++ rest x /\
    caps x = [server; board; tid] /\
    server <> [] /\ forallb notSlash server = true /\
    board <> [] /\ forallb notSlash board = true /\
    tid <> [] /\ forallb isDigit tid = true /\
    startsWithDigit (rest x) = false.
Proof.
  intros H. apply run_plus_sound in H.
  destruct H as (server & t1 & x1 & Hs & Hss & -> & H & -> & _).
  apply run_lit_inv in H. destruct H as (t2 & -> & H).
  apply urlTail_sound in H.
  destruct H as (board & tid & -> & Hc & Hb & Hbs & Ht & Htd & Hr).
  exists server, board, tid. cbn [keep caps rest]. rewrite Hc.
  repeat split; auto.
Qed.

Lemma host5ch_complete (prev : option char)
  (server board tid after : jsstring) :
  server <> [] -> forallb notSlash server = true ->
  board <> [] -> forallb notSlash board = true ->
  tid <> [] -> forallb isDigit tid = true ->
  run (Atom (noneOf "/") Plus true :: (litS (js ".5ch.net") ++ urlTail)) prev
      (server ++ js ".5ch.net" ++ js "/test/read.cgi/" ++ board ++ js "/"
       ++ tid ++ after) <> None.
Proof.
  intros Hs Hss Hb Hbs Ht Htd.
  apply run_plus_complete; [assumption|exact Hss|].
  rewrite run_lit_app. now apply urlTail_complete.
Qed.

Lemma earlier_match (url scheme server board tid after : jsstring) :
  isThreadUrl url scheme server (js "5ch.net") board tid after ->
  matchRe url5chRe url = Some ([], Res [server; board; tid] after).
Proof.
  intros (-> & Hsch & Hs & Hss & _ & _ & Hb & Hbs & Ht & Htd & Haf).
  change (js "." ++ js "5ch.net" ++ ?x) with (js ".5ch.net" ++ x).
  set (t := server ++ js ".5ch.net" ++ js "/test/read.cgi/" ++ board
            ++ js "/" ++ tid ++ after).
  set (R := Atom (noneOf "/") Plus true :: (litS (js ".5ch.net") ++ urlTail)).
  assert (Hrun : run url5chRe None (scheme ++ js "://" ++ t)
                 = run R (Some 47%N) t).
  { rewrite url5chRe_unfold.
    destruct Hsch as [-> | ->];
      [apply run_scheme_http | apply run_scheme_https]. }
  destruct (run R (Some 47%N) t) as [x|] eqn:E.
  2:{ exfalso. revert E. now apply host5ch_complete. }
  destruct (host5ch_sound _ _ _ E) as
    (g1 & g3 & g4 & Et & Hc & H1 & H1s & H3 & H3s & H4 & H4d & Hr).
  unfold t in Et. rewrite js_slash_test in Et. cbn [app] in Et.
  rewrite (app_assoc server), (app_assoc g1) in Et.
  assert (N5 : forall a, forallb notSlash a = true ->
                 forallb notSlash (a ++ js ".5ch.net") = true)
    by (intros a Ha; now rewrite forallb_app, Ha).
  destruct (cut_at_slash _ _ _ _ (N5 _ Hss) (N5 _ H1s) Et) as [Eh Et2].
  apply app_inv_tail in Eh. subst g1.
  apply app_inv_head in Et2.
  change (js "/" ++ ?z) with (47%N :: z) in Et2.
  destruct (cut_at_slash _ _ _ _ Hbs H3s Et2) as [<- Et3].
  destruct (cut_digits _ _ _ _ Htd H4d Haf Hr Et3) as [<- Erest].
  unfold matchRe. rewrite (search_here _ _ _ _ Hrun).
  destruct x as [cs rs]. simpl in Hc, Erest. now subst cs rs.
Qed.

(** X16: on a thread URL of [5ch.net] the earlier page answers
    [https://{server}.5ch.net/{board}/dat/{threadId}.dat] whatever the
    length of the thread id; the later page, in live mode, gives the
    same answer, except that it refuses a thread id of fewer than five
    digits. *)
Theorem earlier_convertToDatUrl (url scheme server board tid after : jsstring) :
  isThreadUrl url scheme server (js "5ch.net") board tid after ->
  Earlier.convertToDatUrl url
  = Some (js "https://" ++ server ++ js ".5ch.net/" ++ board ++ js "/dat/"
          ++ tid ++ js ".dat")
  /\ convertToDatUrl url false
     = (if length tid <? 5 then None else Earlier.convertToDatUrl url).
Proof.
  intros Hu.
  assert (E : Earlier.convertToDatUrl url
              = Some (js "https://" ++ server ++ js ".5ch.net/" ++ board
                      ++ js "/dat/" ++ tid ++ js ".dat")).
  { unfold Earlier.convertToDatUrl. rewrite (earlier_match _ _ _ _ _ _ Hu).
    reflexivity. }
  split; [exact E|].
  rewrite (convertToDatUrl_on_thread_url _ _ _ _ _ _ _ false Hu), E.
  destruct (length tid <? 5); reflexivity.
Qed.

Lemma earlier_convertToDatUrl_witness :
  Earlier.convertToDatUrl (js "http://egg.5ch.net/test/read.cgi/news/123/l50")
  = Some (js "https://" ++ js "egg" ++ js ".5ch.net/" ++ js "news"
          ++ js "/dat/" ++ js "123" ++ js ".dat")
  /\ convertToDatUrl (js "http://egg.5ch.net/test/read.cgi/news/123/l50") false
     = (if length (js "123") <? 5 then None
        else Earlier.convertToDatUrl
               (js "http://egg.5ch.net/test/read.cgi/news/123/l50")).
Proof.
  apply (earlier_convertToDatUrl _ (js "http") (js "egg") (js "news")
           (js "123") (js "/l50")).
  unfold isThreadUrl. repeat split; try discriminate; auto.
Defined.

(** X17: the earlier page answers only for hosts under [5ch.net]: a result
    comes from a part of the text that reads
    [http(s)://{server}.5ch.net/test/read.cgi/{board}/{digits}]. *)
Theorem earlier_convertToDatUrl_inv (url out : jsstring) :
  Earlier.convertToDatUrl url = Some out ->
  exists before scheme server board tid after,
    url = before ++ scheme ++ js "://" ++ server ++ js ".5ch.net"
          ++ js "/test/read.cgi/" ++ board ++ js "/" ++ tid ++ after
    /\ (scheme = js "http" \/ scheme = js "https")
    /\ server <> [] /\ forallb notSlash server = true
    /\ board <> [] /\ forallb notSlash board = true
    /\ tid <> [] /\ forallb isDigit tid = true
    /\ out = js "https://" ++ server ++ js ".5ch.net/" ++ board ++ js "/dat/"
             ++ tid ++ js ".dat".
Proof.
  unfold Earlier.convertToDatUrl.
  destruct (matchRe url5chRe url) as [[before m]|] eqn:E; [|discriminate].
  apply search_sound in E. destruct E as (t & -> & E).
  rewrite url5chRe_unfold in E. apply run_scheme_inv in E.
  destruct E as (scheme & t1 & Hsch & -> & E).
  apply host5ch_sound in E.
  destruct E as (server & board & tid & -> & Hc & Hs & Hss & Hb & Hbs & Ht
                 & Htd & _).
  unfold group. rewrite Hc. cbn [Nat.sub nth]. intros H. inversion H.
  exists before, scheme, server, board, tid, (rest m).
  repeat split; auto.
Qed.

Lemma earlier_convertToDatUrl_inv_witness :
  exists before scheme server board tid after,
    js "http://egg.5ch.net/test/read.cgi/news/123/l50"
    = before ++ scheme ++ js "://" ++ server ++ js ".5ch.net"
      ++ js "/test/read.cgi/" ++ board ++ js "/" ++ tid ++ after
    /\ (scheme = js "http" \/ scheme = js "https")
    /\ server <> [] /\ forallb notSlash server = true
    /\ board <> [] /\ forallb notSlash board = true
    /\ tid <> [] /\ forallb isDigit tid = true
    /\ js "https://egg.5ch.net/news/dat/123.dat"
       = js "https://" ++ server ++ js ".5ch.net/" ++ board ++ js "/dat/"
         ++ tid ++ js ".dat".
Proof.
  apply (earlier_convertToDatUrl_inv
           (js "http://egg.5ch.net/test/read.cgi/news/123/l50")).
  vm_compute. reflexivity.
Defined.

(** ** The id token *)

Lemma idRe_group_nonempty (prev : option char) (t : jsstring) (m : result) :
  run idRe prev t = Some m -> group 1 m <> [].
Proof.
  rewrite idRe_unfold. unfold idReC. intros H.
  apply run_lit_inv in H. destruct H as (t1 & _ & H).
  apply run_plus_sound in H.
  destruct H as (w & t2 & x & Hne & _ & _ & _ & -> & _). exact Hne.
Qed.

Lemma run_idRe_some (prev : option char) (t : jsstring) :
  startsId t = true -> run idRe prev t <> None.
Proof.
  unfold startsId. intros H. apply andb_prop in H. destruct H as [Hs Hx].
  destruct (startsWith_inv _ _ Hs) as [t1 ->].
  change (skipn 3 (js "ID:" ++ t1)) with t1 in Hx.
  destruct t1 as [|x t1]; [discriminate|].
  rewrite idRe_unfold. unfold idReC. rewrite run_lit_app.
  apply (run_plus_complete notSpace true [] _ [x] t1);
    [discriminate|cbn [forallb]; now rewrite Hx|discriminate].
Qed.

Lemma hasIdToken_split (s : jsstring) :
  hasIdToken s = true -> exists b t, s = b ++ t /\ startsId t = true.
Proof.
  induction s as [|c s IH]; cbn [hasIdToken]; intros H.
  - rewrite orb_false_r in H. now exists [], [].
  - apply orb_prop in H. destruct H as [H|H].
    + now exists [], (c :: s).
    + destruct (IH H) as (b & t & -> & Ht). now exists (c :: b), t.
Qed.

Lemma idOf_empty_iff (d : jsstring) :
  idOf d = [] <-> hasIdToken d = false.
Proof.
  unfold idOf. split.
  - intros H. destruct (hasIdToken d) eqn:Ht; [|reflexivity]. exfalso.
    destruct (hasIdToken_split d Ht) as (b & t & -> & Hs).
    pose proof (search_complete idRe b t None (run_idRe_some _ t Hs)) as Hm.
    unfold matchRe in H.
    destruct (search idRe None (b ++ t)) as [[b' m]|] eqn:E; [|congruence].
    apply search_sound in E. destruct E as (t' & _ & E).
    now apply idRe_group_nonempty in E.
  - intros H. rewrite idRe_unfold. now rewrite search_id_none.
Qed.

(** X10: a post has an id exactly when its date field holds [ID:] followed by
    a code unit that is not white space; without such a token the date
    is the whole field, trimmed. *)
Theorem parseDat_id_token (line f0 f1 f2 f3 : jsstring)
  (more : list jsstring) :
  contains lf line = false ->
  split sep line = f0 :: f1 :: f2 :: f3 :: more ->
  exists p,
    parseDatFile line = [p]
    /\ (id p = [] <-> hasIdToken f2 = false)
    /\ (hasIdToken f2 = false -> date p = trim f2).
Proof.
  intros Hlf Hs. eexists.
  split; [apply (parseDatFile_one_line _ _ _ _ _ _ Hlf Hs)|].
  unfold postOfParts. cbn [id date nth]. split; [apply idOf_empty_iff|].
  intros H. unfold dateOf, replaceFirst. rewrite idStripRe_unfold.
  now rewrite search_id_none.
Qed.

Lemma parseDat_id_token_witness :
  exists p,
    parseDatFile blankNameLine = [p]
    /\ (id p = [] <-> hasIdToken (js "2020/01/01") = false)
    /\ (hasIdToken (js "2020/01/01") = false
        -> date p = trim (js "2020/01/01")).
Proof.
  apply (parseDat_id_token blankNameLine (js "  ") (js "sage")
           (js "2020/01/01") (js "hello") []); reflexivity.
Defined.

(** ** The breaks of the earlier page *)

Lemma run_brRe (prev : option char) (s : jsstring) :
  run brRe prev s =
  if startsWith (js "<br>") s then Some (Res [] (skipn 4 s)) else None.
Proof.
  unfold brRe, lit. rewrite <- (app_nil_r (litS (js "<br>"))).
  rewrite run_litS. reflexivity.
Qed.

Lemma go_br_indep (s : jsstring) : forall k p1 p2,
  replaceAll_go brRe brCallback k tt p1 s
  = replaceAll_go brRe brCallback k tt p2 s.
Proof.
  induction s as [|c s IH]; intros k p1 p2; cbn [replaceAll_go].
  - now rewrite !run_brRe.
  - destruct k as [|k]; [|reflexivity]. now rewrite !run_brRe.
Qed.

Lemma go_br_skip (s : jsstring) : forall k p1 p2,
  replaceAll_go brRe brCallback k tt p1 s
  = replaceAll_go brRe brCallback 0 tt p2 (skipn k s).
Proof.
  induction s as [|c s IH]; intros k p1 p2.
  - rewrite skipn_nil. cbn [replaceAll_go]. rewrite !run_brRe.
    now destruct k.
  - destruct k as [|k]; [apply go_br_indep|].
    cbn [replaceAll_go skipn]. apply IH.
Qed.

Lemma brOut_br (s : jsstring) : brOut (js "<br>" ++ s) = 10%N :: brOut s.
Proof.
  unfold brOut. change (js "<br>" ++ s) with (60%N :: (js "br>" ++ s)).
  cbn [replaceAll_go]. rewrite run_brRe.
  change (startsWith (js "<br>") (60%N :: js "br>" ++ s))
    with (startsWith (js "<br>") (js "<br>" ++ s)).
  rewrite startsWith_app.
  change (skipn 4 (60%N :: js "br>" ++ s)) with s.
  cbn [caps rest brCallback]. change (length (60%N :: js "br>" ++ s))
    with (S (S (S (S (length s))))).
  replace (S (S (S (S (length s)))) - length s) with 4 by lia.
  rewrite (go_br_skip (js "br>" ++ s) 3 (Some 60%N) None).
  change (skipn 3 (js "br>" ++ s)) with s.
  now destruct (replaceAll_go brRe brCallback 0 tt None s).
Qed.

Lemma brOut_other (c : char) (s : jsstring) :
  startsWith (js "<br>") (c :: s) = false -> brOut (c :: s) = c :: brOut s.
Proof.
  intros H. unfold brOut. cbn [replaceAll_go]. rewrite run_brRe, H.
  rewrite (go_br_indep s 0 (Some c) None).
  now destruct (replaceAll_go brRe brCallback 0 tt None s).
Qed.

Lemma brOut_prefix (w : jsstring) : forall s,
  forallb (fun c => negb (c =? 10)%N) w = true ->
  startsWith w (brOut s) = true -> startsWith w s = true.
Proof.
  induction w as [|a w IH]; intros s Hw H; [reflexivity|].
  cbn [forallb] in Hw. apply andb_prop in Hw. destruct Hw as [Ha Hw].
  apply negb_true_iff in Ha.
  destruct s as [|c s]; [discriminate|].
  destruct (startsWith (js "<br>") (c :: s)) eqn:E.
  - destruct (startsWith_inv _ _ E) as [s1 Es]. rewrite Es, brOut_br in H.
    cbn [startsWith] in H. rewrite Ha in H. discriminate.
  - rewrite (brOut_other _ _ E) in H. cbn [startsWith] in *.
    apply andb_prop in H. destruct H as [-> H]. now rewrite (IH s Hw H).
Qed.

Lemma brOut_clean_upto (n : nat) : forall s,
  length s <= n -> contains (js "<br>") (brOut s) = false.
Proof.
  induction n as [|n IH]; intros s Hn.
  - destruct s; [reflexivity|simpl in Hn; lia].
  - destruct s as [|c s]; [reflexivity|].
    destruct (startsWith (js "<br>") (c :: s)) eqn:E.
    + destruct (startsWith_inv _ _ E) as [s1 Es]. rewrite Es, brOut_br.
      rewrite contains_cons.
      change (startsWith (js "<br>") (10%N :: brOut s1)) with false.
      apply IH. apply (f_equal (@length N)) in Es.
      rewrite length_app in Es. simpl in Es, Hn. lia.
    + rewrite (brOut_other _ _ E), contains_cons.
      rewrite (IH s) by (simpl in Hn; lia). rewrite orb_false_r.
      destruct (startsWith (js "<br>") (c :: brOut s)) eqn:E2; [|reflexivity].
      change (startsWith (js "<br>") (c :: ?x))
        with ((60 =? c)%N && startsWith (js "br>") x)%bool in E, E2.
      apply andb_prop in E2. destruct E2 as [Ec E2].
      rewrite Ec in E. cbn [andb] in E.
      rewrite (brOut_prefix (js "br>") s eq_refl E2) in E. discriminate.
Qed.

Lemma replaceAll_br_clean (s : jsstring) :
  contains (js "<br>") (replaceAll brRe (fun _ => lf) s) = false.
Proof. apply (brOut_clean_upto (length s)). apply Nat.le_refl. Qed.

(** X9: no message of the earlier page's parser holds a [<br>]: each one
    has become a line feed. *)
Theorem earlier_messages_no_br (content : jsstring) :
  Forall (fun p => contains (js "<br>") (message p) = false)
         (PlainText.parseDatFile content).
Proof.
  rewrite plain_parseDatFile_map. apply Forall_forall. intros p Hp.
  apply in_map_iff in Hp. destruct Hp as (q & <- & _).
  unfold brToLf. cbn [message]. apply replaceAll_br_clean.
Qed.

Lemma plain_parse_serialize_witness :
  PlainText.parseDatFile (serializeDat plainPosts) = plainPosts.
Proof.
  apply (plain_parse_serialize plainPosts).
  - repeat constructor; try discriminate.
  - repeat constructor.
Defined.

(** ** The blocks of the posts *)

Lemma ascending_weaken (lo lo' hi : nat) (l : list nat) :
  lo <= lo' -> ascending lo' l hi -> ascending lo l hi.
Proof.
  destruct l as [|a l]; [trivial|]. cbn [ascending].
  intros Hlo (H1 & H2 & H3). repeat split; auto. lia.
Qed.

Lemma matchAll_go_ascending (r : regex) (s : jsstring) :
  forall skip pos prev,
    ascending pos (matchAll_go r skip pos prev s) (pos + length s).
Proof.
  induction s as [|c s IH]; intros skip pos prev; cbn [matchAll_go];
    [exact I|].
  cbn [length]. replace (pos + S (length s)) with (S pos + length s) by lia.
  destruct skip as [|k].
  - destruct (run r prev (c :: s)) as [x|].
    + cbn [ascending]. split; [lia|]. split; [lia|]. apply IH.
    + apply (ascending_weaken pos (S pos)); [lia|apply IH].
  - apply (ascending_weaken pos (S pos)); [lia|apply IH].
Qed.

Lemma blocksFrom_concat (htmlText : jsstring) (l : list nat) : forall a,
  ascending a (a :: l) (length htmlText) ->
  concat (blocksFrom htmlText (a :: l)) = skipn a htmlText.
Proof.
  induction l as [|b l IH]; intros a (_ & Ha & Hl).
  - cbn [blocksFrom concat]. rewrite app_nil_r. unfold substring.
    apply firstn_all2. rewrite length_skipn. lia.
  - destruct Hl as (Hab & Hb & Hl).
    change (concat (blocksFrom htmlText (a :: b :: l)))
      with (substring a b htmlText ++ concat (blocksFrom htmlText (b :: l))).
    rewrite (IH b) by (cbn [ascending]; repeat split; auto).
    unfold substring.
    replace b with ((b - a) + a) at 2 by lia.
    rewrite <- skipn_skipn. apply firstn_skipn.
Qed.

(** X18: the blocks from which the posts are read follow one another in the
    page without gap or overlap: put end to end they are the page from
    its first post marker on. *)
Theorem parseHtmlPosts_blocks (htmlText : jsstring) :
  concat (blocksFrom htmlText (matchAllIdx divPostRegex htmlText))
  = match matchAllIdx divPostRegex htmlText with
    | [] => []
    | first :: _ => skipn first htmlText
    end
  /\ (forall unescapeHtml,
        parseHtmlPosts unescapeHtml htmlText
        = map (postOfBlock unescapeHtml)
              (blocksFrom htmlText (matchAllIdx divPostRegex htmlText))).
Proof.
  split; [|intros u; apply parseHtmlPosts_map].
  pose proof (matchAll_go_ascending divPostRegex htmlText 0 0 None) as H.
  change (matchAll_go divPostRegex 0 0 None htmlText)
    with (matchAllIdx divPostRegex htmlText) in H.
  destruct (matchAllIdx divPostRegex htmlText) as [|a l]; [reflexivity|].
  apply blocksFrom_concat. cbn [ascending] in *.
  destruct H as (H1 & H2 & H3). repeat split; auto.
Qed.
